(** * causalinference/src/utils/causal_utils.py

    A shallow embedding of the two functions of [causal_utils.py]:

    - [is_match_parenthesis], the stack-based parenthesis check, as a
      structurally recursive scan over the token list;
    - [random_data], the synthetic-data generator, as a computation in a
      state-and-exception monad over the process-wide [np.random] generator,
      written against an interface [NumPy] of the NumPy / SciPy primitives it
      calls.  *)

From stdpp Require Import base option list strings gmap.
From Stdlib Require Import ZArith QArith Qabs Lia.
From Corelib Require Import PrimFloat.

Close Scope Q_scope.


(** ** is_match_parenthesis *)

Module Paren.

(** The only object the loop ever pushes is the builtin type object [str]
    ([stack.append(str)], not [cur_str]): every stack entry is this one
    marker. *)
Inductive pyobj : Type :=
  | builtin_str.

(** The body of the [for] loop with the stack threaded through.  [append]
    pushes at the end of the Python list and [pop] removes the last element.
    A [return False] inside the loop abandons the remaining tokens; falling
    out of the loop runs the final [len(stack) != 0] test. *)
Fixpoint scan (stack : list pyobj) (str_list : list string) : bool :=
  match str_list with
  | [] => if negb (length stack =? 0) then false else true
  | cur_str :: rest =>
      if String.eqb cur_str "(" then scan (stack ++ [builtin_str]) rest
      else if String.eqb cur_str ")" then
        if length stack =? 0 then false
        else scan (removelast stack) rest
      else scan stack rest
  end.

Definition is_match_parenthesis (str_list : list string) : bool :=
  scan [] str_list.

(** Number of tokens of [l] equal to [tok]. *)
Fixpoint count_tok (tok : string) (l : list string) : nat :=
  match l with
  | [] => 0
  | s :: rest => (if String.eqb s tok then 1 else 0) + count_tok tok rest
  end.

Definition opens : list string → nat := count_tok "(".
Definition closes : list string → nat := count_tok ")".

(** The tokens the scan reacts to. *)
Definition is_paren (s : string) : bool :=
  String.eqb s "(" || String.eqb s ")".

(** Every prefix has at least as many "(" as ")", with [d] opens pending. *)
Definition prefix_ok (d : nat) (l : list string) : Prop :=
  ∀ n, closes (take n l) ≤ d + opens (take n l).

(** Swap the two parenthesis tokens, leave every other token alone. *)
Definition mirror (s : string) : string :=
  if String.eqb s "(" then ")" else if String.eqb s ")" then "(" else s.

End Paren.

(** ** The NumPy / SciPy primitives used by random_data

    [random_data] is straight-line plumbing around library calls.  The model
    keeps everything that decides its control flow concrete (array ranks and
    shapes, broadcasting, the argument checks that raise, the draw order on
    the generator) and takes the numeric kernels as an interface:
    the [float64] operations, [scipy.stats.logistic.cdf], the row kernel of
    [ndarray.dot], and the raw samplers behind [np.random]. *)

(** Outcome of the singular value decomposition and of the reconstruction
    test [allclose(dot(v.T * s, v), cov)] that the legacy
    [np.random.multivariate_normal] runs on its [cov] argument. *)
Inductive cov_verdict : Type :=
  | CovPSD            (* symmetric positive semi-definite within tolerance *)
  | CovNotPSD         (* decomposed, but the reconstruction test fails *)
  | CovNoSVD.         (* [numpy.linalg.svd] did not converge *)

(** [F] stands for the [float64] scalars and [G] for the state of the global
    [np.random] generator. *)
Class NumPy (F G : Type) : Type := {
  fadd : F → F → F;
  fmul : F → F → F;
  (** Conversion of a Python / [int64] integer in mixed arithmetic. *)
  of_int : Z → F;
  (** [scipy.stats.logistic.cdf] on one scalar. *)
  logistic_cdf : F → F;
  (** Inner product of a matrix row with a vector, as [ndarray.dot] computes
      it once the shapes have been checked. *)
  inner : list F → list F → F;
  (** [np.random.seed]. *)
  seed : Z → G;
  (** The comparisons [<=] and [<] of [float64] (false whenever an operand is
      NaN) and the test that a value is neither infinite nor NaN. *)
  fle : F → F → bool;
  flt : F → F → bool;
  is_finite : F → bool;
  (** One Bernoulli trial with success probability [p]. *)
  bernoulli : F → G → bool * G;
  (** SVD and validity test of a covariance matrix (given by its rows). *)
  cov_status : list (list F) → cov_verdict;
  (** [size] draws from the multivariate normal with the given mean and
      covariance rows, shapes already checked. *)
  draw_normal : list F → list (list F) → nat → G → list (list F) * G;
}.

Section Model.
Context {F G : Type} `{!NumPy F G}.

(** Two-dimensional arrays: the column count is part of the array, so an
    array of shape [(0, k)] still knows [k]. *)
Record matrix : Type := Matrix {
  ncols : nat;
  rows : list (list F);
}.

Definition nrows (m : matrix) : nat := length (rows m).
Definition shape (m : matrix) : nat * nat := (nrows m, ncols m).

(** Values a caller can bind to a keyword: a scalar, a 1-D or a 2-D array. *)
Inductive pyval : Type :=
  | PyNum (x : F)
  | PyVec (v : list F)
  | PyMat (m : matrix).

(** Exceptions that can leave [random_data].  The first three are
    [ValueError]s, the fourth a [LinAlgError], the last an [IndexError]. *)
Inductive exn : Type :=
  | ShapeMismatch (what : string)
  | ProbabilityOutOfRange
  | CovarianceNotPSD
  | SvdNotConverged
  | IndexOutOfBounds.

Inductive warning : Type :=
  | RuntimeWarning (what : string).

(** Process state touched by the function: the global generator and the
    warnings issued so far. *)
Record state : Type := State {
  rng : G;
  warnings : list warning;
}.

(** A call returns a value and a new state, raises, or leaves the data
    model ([Unmodelled]): the model follows a 1-D [beta] and [theta] and a
    scalar [delta], as the data model has them.  NumPy would broadcast
    other ranks, with results of other ranks than the ones here, and the
    model says nothing of such a call. *)
Inductive outcome (A : Type) : Type :=
  | Ok (a : A) (st : state)
  | Raise (e : exn)
  | Unmodelled.
Global Arguments Ok {A} a st.
Global Arguments Raise {A} e.
Global Arguments Unmodelled {A}.

Definition M (A : Type) : Type := state → outcome A.

Definition ret {A} (a : A) : M A := λ st, Ok a st.
Definition bind {A B} (m : M A) (k : A → M B) : M B :=
  λ st, match m st with
        | Ok a st' => k a st'
        | Raise e => Raise e
        | Unmodelled => Unmodelled
        end.
Definition raise {A} (e : exn) : M A := λ _, Raise e.
Definition unmodelled {A} : M A := λ _, Unmodelled.
Definition warn (w : warning) : M unit :=
  λ st, Ok tt (State (rng st) (warnings st ++ [w])).

Global Instance M_ret : MRet M := @ret.
Global Instance M_bind : MBind M := λ A B k m, bind m k.

(** What the caller gets back, without the state left behind. *)
Definition returned {A} (o : outcome A) : option (exn + A) :=
  match o with
  | Ok a _ => Some (inr a)
  | Raise e => Some (inl e)
  | Unmodelled => None
  end.

(** *** Array constructors and elementwise operations *)

Definition np_zeros (n : nat) : list F := replicate n (of_int 0).
Definition np_ones (n : nat) : list F := replicate n (of_int 1).
Definition np_identity (n : nat) : matrix :=
  Matrix n
    ((λ i, (λ j, if decide (i = j) then of_int 1 else of_int 0) <$> seq 0 n)
       <$> seq 0 n).

(** Broadcasting of a binary operation over two 1-D arrays: equal lengths
    combine elementwise, a length-1 operand is stretched, anything else is
    "operands could not be broadcast together". *)
Definition broadcast2 {A B C} (f : A → B → C) (a : list A) (b : list B)
    : M (list C) :=
  if length a =? length b then mret (zip_with f a b)
  else match a, b with
       | [x], _ => mret (f x <$> b)
       | _, [y] => mret ((λ x, f x y) <$> a)
       | _, _ => raise (ShapeMismatch "operands could not be broadcast together")
       end.

(** [a + b] on two [float64] arrays. *)
Definition add_arrays (a b : list F) : M (list F) := broadcast2 fadd a b.

(** [a * y] with [a] an integer array and [y] a [float64] array: the
    integers are converted, then multiplied. *)
Definition mul_int_float (a : list Z) (y : list F) : M (list F) :=
  broadcast2 (λ n x, fmul (of_int n) x) a y.

(** [X.dot(b)] for a 2-D [X] and a 1-D [b]. *)
Definition dot (X : matrix) (b : list F) : M (list F) :=
  if ncols X =? length b then mret ((λ row, inner row b) <$> rows X)
  else raise (ShapeMismatch "shapes not aligned").

(** [m[:, j]]. *)
Definition column (m : matrix) (j : nat) : M (list F) :=
  if j <? ncols m then mret ((λ row, default (of_int 0) (row !! j)) <$> rows m)
  else raise IndexOutOfBounds.

(** Keyword values at the rank the docstring gives them: [beta] and [theta]
    1-D, [delta] a scalar.  NumPy broadcasts a [beta], [theta] or [delta] of
    another rank into outputs of other shapes; such calls are left outside
    the model ([unmodelled] is neither a return nor a raise), and [Ok] and
    [Raise] speak of calls at the docstring's ranks. *)
Definition as_vec (v : pyval) : M (list F) :=
  match v with PyVec a => mret a | _ => unmodelled end.
Definition as_num (v : pyval) : M F :=
  match v with PyNum x => mret x | _ => unmodelled end.

(** *** Sampling primitives of np.random *)

Inductive check_mode : Type :=
  | CheckWarn
  | CheckRaise
  | CheckIgnore.

(** Advance the generator by the draws of one multivariate-normal call. *)
Definition sample_normal (mean : list F) (cov : matrix) (size : nat) : M matrix :=
  λ st, let r := draw_normal mean (rows cov) size (rng st) in
        Ok (Matrix (length mean) r.1) (State r.2 (warnings st)).

(** [np.random.multivariate_normal(mean, cov, size, check_valid)]: rank and
    shape checks, the draws (whose [reshape(-1, len(mean))] fails for a mean
    of length 0), the decomposition of [cov], and the validity test whose
    failure warns, raises or is ignored according to [check_valid]. *)
Definition multivariate_normal (mean cov : pyval) (size : nat)
    (check_valid : check_mode) : M matrix :=
  match mean with
  | PyVec mean =>
      match cov with
      | PyMat cov =>
          if negb (nrows cov =? ncols cov) then
            raise (ShapeMismatch "cov must be 2 dimensional and square")
          else if negb (length mean =? nrows cov) then
            raise (ShapeMismatch "mean and cov must have same length")
          else if length mean =? 0 then
            raise (ShapeMismatch
                     "cannot reshape array of size 0 into shape (0)")
          else
            x ← sample_normal mean cov size;
            match cov_status (rows cov) with
            | CovNoSVD => raise SvdNotConverged
            | CovPSD => mret x
            | CovNotPSD =>
                match check_valid with
                | CheckIgnore => mret x
                | CheckWarn =>
                    _ ← warn (RuntimeWarning
                          "covariance is not symmetric positive-semidefinite.");
                    mret x
                | CheckRaise => raise CovarianceNotPSD
                end
            end
      | _ => raise (ShapeMismatch "cov must be 2 dimensional and square")
      end
  | _ => raise (ShapeMismatch "mean must be 1 dimensional")
  end.

Global Arguments multivariate_normal : simpl never.

(** Argument check of [np.random.binomial]: it raises when [p < 0], [p > 1]
    or [p] is NaN, that is unless [0 <= p <= 1]. *)
Definition prob_ok (p : F) : bool :=
  fle (of_int 0) p && fle p (of_int 1).

(** [np.random.binomial(1, p, size=1)]: one trial, the count of successes
    is 0 or 1. *)
Definition binomial1 (p : F) : M Z :=
  if prob_ok p then
    λ st, let r := bernoulli p (rng st) in
          Ok (Z.b2z r.1) (State r.2 (warnings st))
  else raise ProbabilityOutOfRange.

(** [np.array([np.random.binomial(1, p, size=1) for p in pscore]).flatten()]:
    the trials are drawn in index order. *)
Fixpoint binomial_each (pscore : list F) : M (list Z) :=
  match pscore with
  | [] => mret []
  | p :: rest =>
      t ← binomial1 p;
      ts ← binomial_each rest;
      mret (t :: ts)
  end.

(** [np.random.seed(s)]. *)
Definition np_random_seed (s : Z) : M unit :=
  λ st, Ok tt (State (seed s) (warnings st)).

(** *** random_data *)

(** The returned tuple: [(Y, T, X)] or [(Y, T, X, Y0, Y1, pscore)]. *)
Inductive result : Type :=
  | Tuple3 (Y : list F) (T : list Z) (X : matrix)
  | Tuple6 (Y : list F) (T : list Z) (X : matrix) (Y0 Y1 pscore : list F).

Definition res_Y (r : result) : list F :=
  match r with Tuple3 Y _ _ | Tuple6 Y _ _ _ _ _ => Y end.
Definition res_T (r : result) : list Z :=
  match r with Tuple3 _ T _ | Tuple6 _ T _ _ _ _ => T end.
Definition res_X (r : result) : matrix :=
  match r with Tuple3 _ _ X | Tuple6 _ _ X _ _ _ => X end.

(** [kwargs.get(name, dflt)]. *)
Definition kwargs_get (kwargs : gmap string pyval) (name : string)
    (dflt : pyval) : pyval :=
  default dflt (kwargs !! name).

Definition random_data (N K : nat) (unobservables : bool)
    (kwargs : gmap string pyval) : M result :=
  let mu := kwargs_get kwargs "mu" (PyVec (np_zeros K)) in
  let beta := kwargs_get kwargs "beta" (PyVec (np_ones K)) in
  let theta := kwargs_get kwargs "theta" (PyVec (np_ones K)) in
  let delta := kwargs_get kwargs "delta" (PyNum (of_int 3)) in
  let Sigma := kwargs_get kwargs "Sigma" (PyMat (np_identity K)) in
  let Gamma := kwargs_get kwargs "Gamma" (PyMat (np_identity 2)) in
  X ← multivariate_normal mu Sigma N CheckWarn;
  beta ← as_vec beta;
  Xbeta ← dot X beta;
  let pscore := logistic_cdf <$> Xbeta in
  T ← binomial_each pscore;
  epsilon ← multivariate_normal (PyVec (np_zeros 2)) Gamma N CheckWarn;
  eps0 ← column epsilon 0;
  Y0 ← add_arrays Xbeta eps0;
  theta ← as_vec theta;
  bt ← add_arrays beta theta;
  Xbt ← dot X bt;
  delta ← as_num delta;
  eps1 ← column epsilon 1;
  Y1 ← add_arrays (fadd delta <$> Xbt) eps1;
  c ← mul_int_float ((λ t, 1 - t)%Z <$> T) Y0;
  d ← mul_int_float T Y1;
  Y ← add_arrays c d;
  mret (if unobservables then Tuple6 Y T X Y0 Y1 pscore else Tuple3 Y T X).

(** Line 58 on arrays of equal length: [(1 - T) * Y0 + T * Y1]. *)
Definition observed (T : list Z) (Y0 Y1 : list F) : list F :=
  zip_with fadd
    (zip_with (λ n x, fmul (of_int n) x) ((λ t, (1 - t)%Z) <$> T) Y0)
    (zip_with (λ n x, fmul (of_int n) x) T Y1).

(** Lines 60-63. *)
Definition assemble (unobservables : bool) (Y : list F) (T : list Z) (X : matrix)
    (Y0 Y1 pscore : list F) : result :=
  if unobservables then Tuple6 Y T X Y0 Y1 pscore else Tuple3 Y T X.

(** The keyword names [random_data] looks up. *)
Definition recognised : list string :=
  ["mu"; "beta"; "theta"; "delta"; "Sigma"; "Gamma"].

(** The parameter invariants of the data model: [K >= 1], [mu], [beta],
    [theta] of length [K], [Sigma] of shape [K x K], [Gamma] of shape
    [2 x 2], both valid covariances, [delta] a scalar. *)
Definition valid_params (K : nat) (kwargs : gmap string pyval) : Prop :=
  1 ≤ K ∧
  ∃ mu beta theta delta Sigma Gamma,
    kwargs_get kwargs "mu" (PyVec (np_zeros K)) = PyVec mu ∧
    kwargs_get kwargs "beta" (PyVec (np_ones K)) = PyVec beta ∧
    kwargs_get kwargs "theta" (PyVec (np_ones K)) = PyVec theta ∧
    kwargs_get kwargs "delta" (PyNum (of_int 3)) = PyNum delta ∧
    kwargs_get kwargs "Sigma" (PyMat (np_identity K)) = PyMat Sigma ∧
    kwargs_get kwargs "Gamma" (PyMat (np_identity 2)) = PyMat Gamma ∧
    length mu = K ∧ length beta = K ∧ length theta = K ∧
    shape Sigma = (K, K) ∧ shape Gamma = (2, 2) ∧
    cov_status (rows Sigma) = CovPSD ∧ cov_status (rows Gamma) = CovPSD.

(** The warnings one [check_valid='warn'] draw with covariance [c] adds. *)
Definition cov_warning (c : matrix) : list warning :=
  match cov_status (rows c) with
  | CovNotPSD =>
      [RuntimeWarning "covariance is not symmetric positive-semidefinite."]
  | _ => []
  end.

(** Two outcomes a caller cannot tell apart: the same value and the same
    generator state, or the same exception. *)
Definition agree {A} (o1 o2 : outcome A) : Prop :=
  match o1, o2 with
  | Ok a s1, Ok b s2 => a = b ∧ rng s1 = rng s2
  | Raise e1, Raise e2 => e1 = e2
  | Unmodelled, Unmodelled => True
  | _, _ => False
  end.

(** A computation that reads nothing of the state but the generator. *)
Definition rng_only {A} (m : M A) : Prop :=
  ∀ s1 s2, rng s1 = rng s2 → agree (m s1) (m s2).

(** Two calls, each made right after reseeding the generator with [s]. *)
Definition seeded_call (s : Z) (N K : nat) (unobservables : bool)
    (kwargs : gmap string pyval) : M result :=
  _ ← np_random_seed s;
  random_data N K unobservables kwargs.

(** An outcome that is not an exception. *)
Definition passes {A} (o : outcome A) : Prop := ∀ e, o ≠ Raise e.

(** A computation whose exceptions all satisfy [P]. *)
Definition raises_within {A} (P : exn → Prop) (m : M A) : Prop :=
  ∀ st e, m st = Raise e → P e.

(** Parameters whose shapes fit one another: a [mu] with at least one
    entry, [Sigma] square of the dimension of [mu], [beta] as long as [mu],
    [theta] as long as [beta] or of length 1, [Gamma] of shape [2 x 2],
    [delta] a scalar.  [K] enters only through the defaults. *)
Definition conforming (K : nat) (kwargs : gmap string pyval) : Prop :=
  ∃ mu beta theta delta Sigma Gamma,
    kwargs_get kwargs "mu" (PyVec (np_zeros K)) = PyVec mu ∧
    kwargs_get kwargs "beta" (PyVec (np_ones K)) = PyVec beta ∧
    kwargs_get kwargs "theta" (PyVec (np_ones K)) = PyVec theta ∧
    kwargs_get kwargs "delta" (PyNum (of_int 3)) = PyNum delta ∧
    kwargs_get kwargs "Sigma" (PyMat (np_identity K)) = PyMat Sigma ∧
    kwargs_get kwargs "Gamma" (PyMat (np_identity 2)) = PyMat Gamma ∧
    1 ≤ length mu ∧
    nrows Sigma = ncols Sigma ∧ length mu = nrows Sigma ∧
    length beta = length mu ∧
    (length theta = length beta ∨ length theta = 1) ∧
    shape Gamma = (2, 2).

(** The values [kwargs.get] yields for the six parameters, at the ranks of
    the data model. *)
Definition in_use (K : nat) (kwargs : gmap string pyval)
    (mu beta theta : list F) (delta : F) (Sigma Gamma : matrix) : Prop :=
  kwargs_get kwargs "mu" (PyVec (np_zeros K)) = PyVec mu ∧
  kwargs_get kwargs "beta" (PyVec (np_ones K)) = PyVec beta ∧
  kwargs_get kwargs "theta" (PyVec (np_ones K)) = PyVec theta ∧
  kwargs_get kwargs "delta" (PyNum (of_int 3)) = PyNum delta ∧
  kwargs_get kwargs "Sigma" (PyMat (np_identity K)) = PyMat Sigma ∧
  kwargs_get kwargs "Gamma" (PyMat (np_identity 2)) = PyMat Gamma.

(** The shape conditions of [conforming], on named parameters. *)
Definition fits (mu beta theta : list F) (Sigma Gamma : matrix) : Prop :=
  1 ≤ length mu ∧
  nrows Sigma = ncols Sigma ∧ length mu = nrows Sigma ∧
  length beta = length mu ∧
  (length theta = length beta ∨ length theta = 1) ∧
  shape Gamma = (2, 2).

(** [X.dot(b)] and [m[:, j]] as values, once their shape checks passed. *)
Definition linear_predictor (X : matrix) (b : list F) : list F :=
  (λ row, inner row b) <$> rows X.
Definition column_values (m : matrix) (j : nat) : list F :=
  (λ row, default (of_int 0) (row !! j)) <$> rows m.

(** The exceptions a call is expected to raise: a shape mismatch, a
    rejected probability, or a decomposition that did not converge. *)
Definition expected_error (e : exn) : Prop :=
  (∃ what, e = ShapeMismatch what) ∨ e = ProbabilityOutOfRange
  ∨ e = SvdNotConverged.

(** The keyword names whose values reach the draws of [X], [T] and
    [epsilon]. *)
Definition drawn_from : list string := ["mu"; "beta"; "Sigma"; "Gamma"].

End Model.

(** Contract of the primitives that the shape results rely on. *)
Class NumPyContract {F G : Type} `{!NumPy F G} : Prop := {
  (** Documented output shape of the sampler: [size] rows, each as long as
      the mean. *)
  draw_normal_rows : ∀ mean cov size g,
    length (draw_normal mean cov size g).1 = size;
  draw_normal_cols : ∀ mean cov size g,
    Forall (λ row, length row = length mean) (draw_normal mean cov size g).1;
}.

(** ** An executable instance of the interface

    Exact rational arithmetic, a linear congruential generator, and samplers
    built from its uniform draws.  It exists to run the model on concrete
    calls; it makes no claim to the numerics or the distributions of NumPy. *)

Module Ref.

Definition modulus : Z := 2147483648.

Definition lcg (g : Z) : Z := ((1103515245 * g + 12345) mod modulus)%Z.

(** A uniform draw in [0, 1). *)
Definition uniform (g : Z) : Q * Z :=
  let g' := lcg g in (Qred (g' # 2147483648), g').

(** Sum of three centred uniforms, scaled to unit variance. *)
Definition std_normal (g : Z) : Q * Z :=
  let (u1, g1) := uniform g in
  let (u2, g2) := uniform g1 in
  let (u3, g3) := uniform g2 in
  (Qred (2 * (u1 + u2 + u3) - 3), g3).

Fixpoint std_normals (n : nat) (g : Z) : list Q * Z :=
  match n with
  | 0 => ([], g)
  | S n =>
      let (z, g1) := std_normal g in
      let (zs, g2) := std_normals n g1 in
      (z :: zs, g2)
  end.

Definition qadd (x y : Q) : Q := Qred (x + y).
Definition qmul (x y : Q) : Q := Qred (x * y).

Definition qinner (row b : list Q) : Q :=
  foldl qadd 0%Q (zip_with qmul row b).

(** One draw: [mean + cov . z] for a fresh standard normal vector [z]
    (exact for the identity covariance; rationals have no square roots). *)
Definition draw_row (mean : list Q) (cov : list (list Q)) (g : Z)
    : list Q * Z :=
  let (z, g') := std_normals (length mean) g in
  (imap (λ i m, qadd m (qinner (nth i cov []) z)) mean, g').

Fixpoint draw_rows (mean : list Q) (cov : list (list Q)) (size : nat) (g : Z)
    : list (list Q) * Z :=
  match size with
  | 0 => ([], g)
  | S size =>
      let (r, g1) := draw_row mean cov g in
      let (rs, g2) := draw_rows mean cov size g1 in
      (r :: rs, g2)
  end.

Definition entry (m : list (list Q)) (i j : nat) : Q :=
  nth j (nth i m []) 0%Q.

Definition is_symmetric (m : list (list Q)) : bool :=
  forallb (λ i, forallb (λ j, Qeq_bool (entry m i j) (entry m j i))
                  (seq 0 (length m)))
          (seq 0 (length m)).

(** Positive semi-definiteness of a symmetric matrix by elimination: a
    negative pivot refutes it, a zero pivot needs a zero row, a positive
    pivot passes to the Schur complement. *)
Fixpoint psd_elim (fuel : nat) (m : list (list Q)) : bool :=
  match fuel, m with
  | S fuel, r0 :: rest =>
      let a := hd 0%Q r0 in
      match (a ?= 0)%Q with
      | Lt => false
      | Eq => forallb (Qeq_bool 0) r0 && psd_elim fuel (tail <$> rest)
      | Gt =>
          psd_elim fuel
            ((λ r, zip_with (λ x y, Qred (x - hd 0%Q r * y / a))
                     (tail r) (tail r0)) <$> rest)
      end
  | _, _ => true
  end.

Definition ref_cov_status (m : list (list Q)) : cov_verdict :=
  if is_symmetric m && psd_elim (length m) m then CovPSD else CovNotPSD.

(** An algebraic sigmoid standing in for the logistic CDF. *)
Definition sigmoid (x : Q) : Q :=
  Qred ((1 + x / (1 + Qabs x)) / 2).

Definition qlt (x y : Q) : bool := negb (Qle_bool y x).

Definition ref_bernoulli (p : Q) (g : Z) : bool * Z :=
  let (u, g') := uniform g in (negb (Qle_bool p u), g').

Global Instance numpy : NumPy Q Z := {|
  fadd := qadd;
  fmul := qmul;
  of_int := inject_Z;
  logistic_cdf := sigmoid;
  inner := qinner;
  seed := λ s, (s mod modulus)%Z;
  fle := Qle_bool;
  flt := qlt;
  is_finite := λ _, true;
  bernoulli := ref_bernoulli;
  cov_status := ref_cov_status;
  draw_normal := draw_rows;
|}.

(** *** Inputs for concrete runs *)

(** A state of the process: generator state 42, no warning issued yet. *)
Definition st0 : @state Z := State 42%Z [].

(** No keyword supplied. *)
Definition no_kwargs : gmap string (@pyval Q) := ∅.

(** All of mu, Sigma, beta, theta supplied with dimension 2. *)
Definition kwargs_dim2 : gmap string (@pyval Q) :=
  <["mu" := PyVec [0; 0]%Q]>
    (<["Sigma" := PyMat (np_identity 2)]>
       (<["beta" := PyVec [1; 1]%Q]>
          (<["theta" := PyVec [1; 1]%Q]> ∅))).

(** Only theta supplied, with length 1. *)
Definition kwargs_theta1 : gmap string (@pyval Q) :=
  <["theta" := PyVec [5]%Q]> ∅.

(** A covariance that is not symmetric. *)
Definition lopsided : @matrix Q := Matrix 2 [[1; 2]; [0; 1]]%Q.

Definition kwargs_lopsided : gmap string (@pyval Q) :=
  <["Sigma" := PyMat lopsided]> ∅.

(** Only beta supplied, with length 2. *)
Definition kwargs_beta2 : gmap string (@pyval Q) :=
  <["beta" := PyVec [1; 1]%Q]> ∅.

End Ref.

(** ** A binary64 instance

    The same interface over IEEE 754 binary64 ([float64]), for the
    properties that depend on rounding, overflow and underflow. *)

Module F64.

(** Integer to [float64]; exact below [2^53]. *)
Fixpoint of_pos (p : positive) : float :=
  match p with
  | xH => 1%float
  | xO p => PrimFloat.mul 2%float (of_pos p)
  | xI p => PrimFloat.add (PrimFloat.mul 2%float (of_pos p)) 1%float
  end.

Definition f64_of_int (z : Z) : float :=
  match z with
  | Z0 => 0%float
  | Zpos p => of_pos p
  | Zneg p => PrimFloat.opp (of_pos p)
  end.

(** [1 + x/k (1 + x/(k+1) (1 + ...))]: the exponential series, [n] terms. *)
Fixpoint exp_series (n : nat) (k x : float) : float :=
  match n with
  | 0 => 1%float
  | S n =>
      PrimFloat.add 1%float
        (PrimFloat.mul (PrimFloat.div x k)
           (exp_series n (PrimFloat.add k 1%float) x))
  end.

(** [exp(x) = exp(x/2)^2] down to [|x| < 1/2]; the squarings overflow to
    [inf] and underflow to [0] as the C library's [exp] does. *)
Fixpoint exp_halving (fuel : nat) (x : float) : float :=
  match fuel with
  | 0 => exp_series 18 1%float x
  | S fuel =>
      if PrimFloat.ltb (PrimFloat.abs x) 0.5%float
      then exp_series 18 1%float x
      else let y := exp_halving fuel (PrimFloat.div x 2%float) in
           PrimFloat.mul y y
  end.

Definition exp (x : float) : float :=
  if PrimFloat.eqb x neg_infinity then 0%float
  else if PrimFloat.eqb x infinity then infinity
  else exp_halving 1100 x.

(** [scipy.stats.logistic.cdf] is [scipy.special.expit]:
    [1 / (1 + exp(-x))]. *)
Definition expit (x : float) : float :=
  PrimFloat.div 1%float (PrimFloat.add 1%float (exp (PrimFloat.opp x))).

Definition f64_inner (row b : list float) : float :=
  foldl PrimFloat.add 0%float (zip_with PrimFloat.mul row b).

Definition f64_is_finite (x : float) : bool :=
  PrimFloat.ltb (PrimFloat.abs x) infinity.

Definition modulus : Z := 2147483648.

Definition lcg (g : Z) : Z := ((1103515245 * g + 12345) mod modulus)%Z.

(** A uniform draw in [0, 1). *)
Definition uniform (g : Z) : float * Z :=
  let g' := lcg g in
  (PrimFloat.div (f64_of_int g') (f64_of_int modulus), g').

(** Sum of three centred uniforms, scaled to unit variance. *)
Definition std_normal (g : Z) : float * Z :=
  let (u1, g1) := uniform g in
  let (u2, g2) := uniform g1 in
  let (u3, g3) := uniform g2 in
  (PrimFloat.sub
     (PrimFloat.mul 2%float (PrimFloat.add (PrimFloat.add u1 u2) u3))
     3%float, g3).

Fixpoint std_normals (n : nat) (g : Z) : list float * Z :=
  match n with
  | 0 => ([], g)
  | S n =>
      let (z, g1) := std_normal g in
      let (zs, g2) := std_normals n g1 in
      (z :: zs, g2)
  end.

(** One draw: [mean + cov . z] for a fresh standard normal vector [z]
    (the sampler's [mean + z . factor] when [cov] is its own factor, as the
    identity and the zero matrix are). *)
Definition draw_row (mean : list float) (cov : list (list float)) (g : Z)
    : list float * Z :=
  let (z, g') := std_normals (length mean) g in
  (imap (λ i m, PrimFloat.add m (f64_inner (nth i cov []) z)) mean, g').

Fixpoint draw_rows (mean : list float) (cov : list (list float)) (size : nat)
    (g : Z) : list (list float) * Z :=
  match size with
  | 0 => ([], g)
  | S size =>
      let (r, g1) := draw_row mean cov g in
      let (rs, g2) := draw_rows mean cov size g1 in
      (r :: rs, g2)
  end.

Definition entry (m : list (list float)) (i j : nat) : float :=
  nth j (nth i m []) 0%float.

Definition is_symmetric (m : list (list float)) : bool :=
  forallb (λ i, forallb (λ j, PrimFloat.eqb (entry m i j) (entry m j i))
                  (seq 0 (length m)))
          (seq 0 (length m)).

(** Positive semi-definiteness of a symmetric matrix by elimination. *)
Fixpoint psd_elim (fuel : nat) (m : list (list float)) : bool :=
  match fuel, m with
  | S fuel, r0 :: rest =>
      let a := hd 0%float r0 in
      if PrimFloat.ltb a 0%float then false
      else if PrimFloat.eqb a 0%float then
        forallb (PrimFloat.eqb 0%float) r0 && psd_elim fuel (tail <$> rest)
      else
        psd_elim fuel
          ((λ r, zip_with
                   (λ x y, PrimFloat.sub x
                             (PrimFloat.div (PrimFloat.mul (hd 0%float r) y) a))
                   (tail r) (tail r0)) <$> rest)
  | _, _ => true
  end.

(** The decomposition does not converge on an entry that is infinite or
    NaN; otherwise the validity test is symmetry and semi-definiteness. *)
Definition f64_cov_status (m : list (list float)) : cov_verdict :=
  if negb (forallb (forallb f64_is_finite) m) then CovNoSVD
  else if is_symmetric m && psd_elim (length m) m then CovPSD
  else CovNotPSD.

Definition f64_bernoulli (p : float) (g : Z) : bool * Z :=
  let (u, g') := uniform g in (PrimFloat.ltb u p, g').

#[export] Instance numpy : NumPy float Z := {|
  fadd := PrimFloat.add;
  fmul := PrimFloat.mul;
  of_int := f64_of_int;
  logistic_cdf := expit;
  inner := f64_inner;
  seed := λ s, (s mod modulus)%Z;
  fle := PrimFloat.leb;
  flt := PrimFloat.ltb;
  is_finite := f64_is_finite;
  bernoulli := f64_bernoulli;
  cov_status := f64_cov_status;
  draw_normal := draw_rows;
|}.

(** *** Inputs for concrete runs *)

Definition st0 : @state Z := State 42%Z [].

(** One covariate, constant: mean [m], variance 0. *)
Definition kwargs_constant (m : float) : gmap string (@pyval float) :=
  <["mu" := PyVec [m]]> (<["Sigma" := PyMat (Matrix 1 [[0%float]])]> ∅).

End F64.

(** * Properties *)

(** ** is_match_parenthesis *)

Section ParenFacts.
Import Paren.

Lemma count_tok_app tok l1 l2 :
  count_tok tok (l1 ++ l2) = count_tok tok l1 + count_tok tok l2.
Proof. induction l1 as [|s l1 IH]; simpl; [done | rewrite IH; lia]. Qed.

Lemma opens_cons s l :
  opens (s :: l) = (if String.eqb s "(" then 1 else 0) + opens l.
Proof. reflexivity. Qed.

Lemma closes_cons s l :
  closes (s :: l) = (if String.eqb s ")" then 1 else 0) + closes l.
Proof. reflexivity. Qed.

Lemma prefix_ok_cons d s l :
  let c := if String.eqb s ")" then 1 else 0 in
  let o := if String.eqb s "(" then 1 else 0 in
  prefix_ok d (s :: l) ↔
  c ≤ d + o ∧ ∀ n, c + closes (take n l) ≤ d + o + opens (take n l).
Proof.
  intros c o. unfold prefix_ok. split.
  - intros Hp. split.
    + specialize (Hp 1). simpl in Hp. rewrite take_0 in Hp.
      rewrite opens_cons, closes_cons in Hp.
      change (closes []) with 0 in Hp. change (opens []) with 0 in Hp.
      subst c o. lia.
    + intros n. specialize (Hp (S n)). simpl in Hp.
      rewrite opens_cons, closes_cons in Hp. subst c o. lia.
  - intros [H1 Hn] [|n]; simpl.
    + change (closes []) with 0. lia.
    + specialize (Hn n). rewrite opens_cons, closes_cons. subst c o. lia.
Qed.

Lemma length_removelast {A} (l : list A) :
  length (removelast l) = length l - 1.
Proof.
  induction l as [|x [|y l] IH]; simpl in *; [done | done | lia].
Qed.

(** The scan started with [stack] accepts exactly the lists that never close
    more than [length stack] plus the opens seen so far, and that close all
    of them in the end. *)
Lemma scan_spec l : ∀ stack,
  scan stack l = true ↔
  prefix_ok (length stack) l ∧ length stack + opens l = closes l.
Proof.
  induction l as [|s l IH]; intros stack.
  - simpl. unfold prefix_ok. setoid_rewrite take_nil.
    change (opens []) with 0. change (closes []) with 0.
    destruct (Nat.eqb_spec (length stack) 0) as [E|E]; simpl.
    + split; [intros _; split; [intros; lia | lia] | done].
    + split; [done | intros [_ ?]; lia].
  - rewrite prefix_ok_cons, opens_cons, closes_cons. simpl scan.
    destruct (String.eqb_spec s "(") as [->|Hopen].
    + simpl. rewrite IH, length_app. simpl. unfold prefix_ok.
      split.
      * intros [Hp He].
        split; [split; [lia | intros n; specialize (Hp n); lia] | lia].
      * intros [[_ Hp] He]. split; [intros n; specialize (Hp n); lia | lia].
    + destruct (String.eqb_spec s ")") as [->|Hclose].
      * destruct (Nat.eqb_spec (length stack) 0) as [E|E].
        -- split; [done | intros [[H1 _] _]; lia].
        -- rewrite IH, length_removelast. unfold prefix_ok.
           split.
           ++ intros [Hp He].
              split; [split; [lia | intros n; specialize (Hp n); lia] | lia].
           ++ intros [[_ Hp] He].
              split; [intros n; specialize (Hp n); lia | lia].
      * rewrite IH. unfold prefix_ok.
        split.
        -- intros [Hp He].
           split; [split; [lia | intros n; specialize (Hp n); lia] | lia].
        -- intros [[_ Hp] He].
           split; [intros n; specialize (Hp n); lia | lia].
Qed.

Lemma scan_filter l : ∀ stack,
  scan stack (List.filter is_paren l) = scan stack l.
Proof.
  induction l as [|s l IH]; intros stack; [done|].
  simpl. unfold is_paren.
  destruct (String.eqb_spec s "(") as [->|Hopen]; simpl.
  - apply IH.
  - destruct (String.eqb_spec s ")") as [->|Hclose]; simpl.
    + destruct (length stack =? 0); [done | apply IH].
    + apply IH.
Qed.

Lemma take_app_one {A} (l1 l2 : list A) x :
  take (S (length l1)) (l1 ++ x :: l2) = l1 ++ [x].
Proof. induction l1 as [|y l1 IH]; simpl; [by rewrite take_0 | by rewrite IH]. Qed.

(** C2.  [is_match_parenthesis] returns [True] exactly on the token lists in
    which, counting only the tokens "(" and ")", no prefix has more ")" than
    "(" and the whole list has as many of each.  In particular the empty
    list is accepted; a ")" met when every earlier "(" is already matched
    makes the result [False] whatever follows; tokens other than "(" and ")"
    do not influence the result; and the function returns a boolean on
    every list. *)
Theorem is_match_parenthesis_spec (tokens : list string) :
  (is_match_parenthesis tokens = true ↔
     (∀ n, closes (take n tokens) ≤ opens (take n tokens)) ∧
     opens tokens = closes tokens)
  ∧ is_match_parenthesis [] = true
  ∧ (∀ rest, opens tokens ≤ closes tokens →
       is_match_parenthesis (tokens ++ ")" :: rest) = false)
  ∧ is_match_parenthesis (List.filter is_paren tokens)
    = is_match_parenthesis tokens
  ∧ (is_match_parenthesis tokens = true ∨ is_match_parenthesis tokens = false).
Proof.
  unfold is_match_parenthesis.
  assert (Hiff : scan [] tokens = true ↔
            (∀ n, closes (take n tokens) ≤ opens (take n tokens)) ∧
            opens tokens = closes tokens).
  { rewrite scan_spec. unfold prefix_ok. simpl. reflexivity. }
  split; [exact Hiff|]. split; [reflexivity|]. split; [|split].
  - intros rest Hle.
    destruct (scan [] (tokens ++ ")" :: rest)) eqn:Hs; [|done].
    apply scan_spec in Hs as [Hp _].
    specialize (Hp (S (length tokens))). rewrite take_app_one in Hp.
    unfold opens, closes in *. rewrite !count_tok_app in Hp. simpl in Hp. lia.
  - apply scan_filter.
  - destruct (scan [] tokens); auto.
Qed.

End ParenFacts.

(** ** random_data: the monad and the primitives *)

Section PrimitiveFacts.
Context {F G : Type} `{!NumPy F G}.
Implicit Types (st s : @state G) (kwargs : gmap string (@pyval F)).

Lemma mbind_Ok {A B} (m : M A) (k : A → M B) st b st' :
  (m ≫= k) st = Ok b st' ↔ ∃ a st1, m st = Ok a st1 ∧ k a st1 = Ok b st'.
Proof.
  unfold mbind, M_bind, bind. destruct (m st) as [a st1| |]; split.
  - intros Hk. by exists a, st1.
  - by intros (a' & st1' & [= <- <-] & Hk).
  - done.
  - by intros (? & ? & ? & _).
  - done.
  - by intros (? & ? & ? & _).
Qed.

Lemma mbind_Raise {A B} (m : M A) (k : A → M B) st e :
  (m ≫= k) st = Raise e ↔
  m st = Raise e ∨ ∃ a st1, m st = Ok a st1 ∧ k a st1 = Raise e.
Proof.
  unfold mbind, M_bind, bind. destruct (m st) as [a st1|e'|]; split.
  - intros Hk. right. by exists a, st1.
  - intros [?|(a' & st1' & Heq & Hk)]; [done|]. by injection Heq as <- <-.
  - intros [= ->]. by left.
  - intros [[= ->]|(? & ? & ? & ?)]; done.
  - done.
  - intros [?|(? & ? & ? & ?)]; done.
Qed.

Lemma mbind_step {A B} (m : M A) (k : A → M B) st a st1 :
  m st = Ok a st1 → (m ≫= k) st = k a st1.
Proof. unfold mbind, M_bind, bind. by intros ->. Qed.

Lemma mbind_fail {A B} (m : M A) (k : A → M B) st e :
  m st = Raise e → (m ≫= k) st = Raise e.
Proof. unfold mbind, M_bind, bind. by intros ->. Qed.

Lemma mret_Ok {A} (a b : A) st st' :
  mret (M := M) a st = Ok b st' ↔ a = b ∧ st = st'.
Proof. unfold mret, M_ret, ret. split; [by intros [= -> ->] | by intros [-> ->]]. Qed.

Lemma broadcast2_same_length {A B C} (f : A → B → C) a b :
  length a = length b → broadcast2 (G := G) f a b = mret (zip_with f a b).
Proof. unfold broadcast2. intros ->. by rewrite Nat.eqb_refl. Qed.

Lemma broadcast2_not_Raise {A B C} (f : A → B → C) a b st e :
  broadcast2 f a b st = Raise e → ∃ what, e = ShapeMismatch what.
Proof.
  unfold broadcast2. destruct (length a =? length b); [done|].
  destruct a as [|x [|x' a]], b as [|y [|y' b]]; try done;
    intros [= <-]; eauto.
Qed.

Lemma broadcast2_Ok_state {A B C} (f : A → B → C) a b st c st' :
  broadcast2 f a b st = Ok c st' → st' = st.
Proof.
  unfold broadcast2. destruct (length a =? length b); [by intros [= _ ->]|].
  destruct a as [|x [|x' a]], b as [|y [|y' b]]; try done;
    by intros [= _ ->].
Qed.

Lemma dot_Ok X b st v st' :
  dot X b st = Ok v st' →
  ncols X = length b ∧ v = (λ row, inner row b) <$> rows X ∧ st' = st.
Proof.
  unfold dot. destruct (Nat.eqb_spec (ncols X) (length b)); [|done].
  by intros [= <- <-].
Qed.

Lemma dot_aligned X b :
  ncols X = length b →
  dot (G := G) X b = mret ((λ row, inner row b) <$> rows X).
Proof. unfold dot. intros ->. by rewrite Nat.eqb_refl. Qed.

Lemma dot_misaligned X b st :
  ncols X ≠ length b → dot X b st = Raise (ShapeMismatch "shapes not aligned").
Proof.
  unfold dot. intros Hne. by destruct (Nat.eqb_spec (ncols X) (length b)).
Qed.

Lemma column_Ok m j st v st' :
  column m j st = Ok v st' →
  j < ncols m ∧ v = (λ row, default (of_int 0) (row !! j)) <$> rows m ∧ st' = st.
Proof.
  unfold column. destruct (Nat.ltb_spec j (ncols m)); [|done].
  by intros [= <- <-].
Qed.

Lemma column_in_range m j :
  j < ncols m →
  column (G := G) m j
  = mret ((λ row, default (of_int 0) (row !! j)) <$> rows m).
Proof. unfold column. intros Hj. by destruct (Nat.ltb_spec j (ncols m)); [|lia]. Qed.

Lemma as_vec_Ok (v : @pyval F) st a st' : as_vec v st = Ok a st' → v = PyVec a ∧ st' = st.
Proof. destruct v; try done. by intros [= <- <-]. Qed.

Lemma as_num_Ok (v : @pyval F) st x st' : as_num v st = Ok x st' → v = PyNum x ∧ st' = st.
Proof. destruct v; try done. by intros [= <- <-]. Qed.

(** A successful draw had a 1-D mean, a square covariance of the same
    dimension whose decomposition converged, and returns the sampler's rows
    under the mean's length as column count. *)
Lemma multivariate_normal_Ok mean cov size mode st X st' :
  multivariate_normal mean cov size mode st = Ok X st' →
  ∃ m c, mean = PyVec m ∧ cov = PyMat c ∧
    nrows c = ncols c ∧ length m = nrows c ∧
    cov_status (rows c) ≠ CovNoSVD ∧
    X = Matrix (length m) (draw_normal m (rows c) size (rng st)).1 ∧
    rng st' = (draw_normal m (rows c) size (rng st)).2.
Proof.
  unfold multivariate_normal.
  destruct mean as [|m|]; try done. destruct cov as [| |c]; try done.
  destruct (Nat.eqb_spec (nrows c) (ncols c)) as [Hsq|]; [|done].
  destruct (Nat.eqb_spec (length m) (nrows c)) as [Hlen|]; [|done].
  destruct (length m =? 0); [done|].
  simpl. intros Hrun. exists m, c. repeat (split; [done|]).
  unfold mbind, M_bind, bind, sample_normal in Hrun.
  destruct (cov_status (rows c)); [| |done].
  - revert Hrun. intros [= <- <-]. done.
  - destruct mode; revert Hrun; [|done|]; by intros [= <- <-].
Qed.

Lemma multivariate_normal_Ok_nonempty mean cov size mode st X st' :
  multivariate_normal mean cov size mode st = Ok X st' →
  ∃ m, mean = PyVec m ∧ length m ≠ 0.
Proof.
  unfold multivariate_normal.
  destruct mean as [|m|]; try done. destruct cov as [| |c]; try done.
  destruct (negb (nrows c =? ncols c)); [done|].
  destruct (negb (length m =? nrows c)); [done|].
  destruct (Nat.eqb_spec (length m) 0); [done|]. by exists m.
Qed.

Lemma binomial1_Ok p st t st' :
  binomial1 p st = Ok t st' → (t = 0 ∨ t = 1)%Z ∧ warnings st' = warnings st.
Proof.
  unfold binomial1. destruct (prob_ok p); [|done].
  intros [= <- <-]. split; [|done]. destruct (bernoulli p (rng st)).1; auto.
Qed.

(** The treatment loop returns one draw per score, each 0 or 1. *)
Lemma binomial_each_Ok pscore : ∀ st T st',
  binomial_each pscore st = Ok T st' →
  length T = length pscore ∧ Forall (λ t, t = 0 ∨ t = 1)%Z T.
Proof.
  induction pscore as [|p ps IH]; intros st T st'; simpl.
  - intros [[= <-] _]%mret_Ok. by split.
  - intros (t & st1 & Ht & Hk)%mbind_Ok.
    apply mbind_Ok in Hk as (ts & st2 & Hts & [<- _]%mret_Ok).
    apply binomial1_Ok in Ht as [Ht _]. apply IH in Hts as [Hl Hf].
    split; [simpl; by rewrite Hl | by constructor].
Qed.

(** Every score of a treatment loop that went through passed the argument
    check. *)
Lemma binomial_each_checked pscore : ∀ st T st',
  binomial_each pscore st = Ok T st' →
  Forall (λ p, prob_ok p = true) pscore.
Proof.
  induction pscore as [|p ps IH]; intros st T st'; simpl; [done|].
  intros (t & st1 & Ht & Hk)%mbind_Ok.
  apply mbind_Ok in Hk as (ts & st2 & Hts & _).
  constructor; [|by eapply IH].
  unfold binomial1 in Ht. by destruct (prob_ok p).
Qed.

End PrimitiveFacts.

(** ** random_data: what a successful call returns *)

Section RandomDataFacts.
Context {F G : Type} `{!NumPy F G} `{!NumPyContract}.
Implicit Types (st s : @state G) (kwargs : gmap string (@pyval F)).

Lemma sample_rows mean cov size g :
  nrows (Matrix (length mean) (draw_normal mean cov size g).1) = size.
Proof. unfold nrows. simpl. apply draw_normal_rows. Qed.

(** Inversion of a successful call: the keyword values that were used, the
    covariate draw, and the arrays of the returned tuple, all of length
    [N]. *)
Lemma random_data_Ok N K u kwargs st r st' :
  random_data N K u kwargs st = Ok r st' →
  ∃ mu Sigma beta X T Y0 Y1,
    kwargs_get kwargs "mu" (PyVec (np_zeros K)) = PyVec mu ∧
    kwargs_get kwargs "Sigma" (PyMat (np_identity K)) = PyMat Sigma ∧
    kwargs_get kwargs "beta" (PyVec (np_ones K)) = PyVec beta ∧
    length beta = length mu ∧
    X = Matrix (length mu) (draw_normal mu (rows Sigma) N (rng st)).1 ∧
    length T = N ∧ Forall (λ t, t = 0 ∨ t = 1)%Z T ∧
    length Y0 = N ∧ length Y1 = N ∧
    r = assemble u (observed T Y0 Y1) T X Y0 Y1
          (logistic_cdf <$> ((λ row, inner row beta) <$> rows X)).
Proof.
  unfold random_data, add_arrays, mul_int_float. intros Hrun.
  apply mbind_Ok in Hrun as (X & s1 & HX & Hrun).
  apply multivariate_normal_Ok in HX
    as (mu & Sigma & Hmu & HSigma & Hsq & Hlen & Hsvd & HXeq & Hrng).
  apply mbind_Ok in Hrun as (beta & s2 & Hbeta & Hrun).
  apply as_vec_Ok in Hbeta as [Hbeta ->].
  apply mbind_Ok in Hrun as (Xbeta & s3 & HXbeta & Hrun).
  apply dot_Ok in HXbeta as (Hal & HXbeta & ->).
  apply mbind_Ok in Hrun as (T & s4 & HT & Hrun).
  apply binomial_each_Ok in HT as [HTlen HTbin].
  rewrite length_fmap in HTlen.
  apply mbind_Ok in Hrun as (eps & s5 & Heps & Hrun).
  apply multivariate_normal_Ok in Heps
    as (zero2 & Gamma & [= <-] & HGamma & _ & _ & _ & Hepseq & _).
  apply mbind_Ok in Hrun as (eps0 & s6 & Heps0 & Hrun).
  apply column_Ok in Heps0 as (_ & Heps0 & ->).
  assert (HN : length Xbeta = N).
  { rewrite HXbeta, length_fmap, HXeq. apply draw_normal_rows. }
  assert (HepsN : length (rows eps) = N).
  { rewrite Hepseq. apply draw_normal_rows. }
  rewrite (broadcast2_same_length fadd Xbeta eps0) in Hrun
    by (rewrite Heps0, length_fmap; congruence).
  apply mbind_Ok in Hrun as (Y0 & s7 & [<- ->]%mret_Ok & Hrun).
  apply mbind_Ok in Hrun as (theta & s8 & Htheta & Hrun).
  apply as_vec_Ok in Htheta as [Htheta ->].
  apply mbind_Ok in Hrun as (bt & s9 & Hbt & Hrun).
  apply broadcast2_Ok_state in Hbt as ->.
  apply mbind_Ok in Hrun as (Xbt & s10 & HXbt & Hrun).
  apply dot_Ok in HXbt as (_ & HXbt & ->).
  apply mbind_Ok in Hrun as (delta & s11 & Hdelta & Hrun).
  apply as_num_Ok in Hdelta as [Hdelta ->].
  apply mbind_Ok in Hrun as (eps1 & s12 & Heps1 & Hrun).
  apply column_Ok in Heps1 as (_ & Heps1 & ->).
  assert (HXbtN : length Xbt = N).
  { rewrite HXbt, length_fmap, HXeq. apply draw_normal_rows. }
  rewrite (broadcast2_same_length fadd (fadd delta <$> Xbt) eps1) in Hrun
    by (rewrite Heps1, !length_fmap; congruence).
  apply mbind_Ok in Hrun as (Y1 & s13 & [<- ->]%mret_Ok & Hrun).
  set (Y0 := zip_with fadd Xbeta eps0) in *.
  set (Y1 := zip_with fadd (fadd delta <$> Xbt) eps1) in *.
  assert (HY0 : length Y0 = N).
  { unfold Y0. rewrite length_zip_with, Heps0, length_fmap. lia. }
  assert (HY1 : length Y1 = N).
  { unfold Y1. rewrite length_zip_with, Heps1, !length_fmap. lia. }
  rewrite (broadcast2_same_length _ (_ <$> T) Y0) in Hrun
    by (rewrite length_fmap; lia).
  apply mbind_Ok in Hrun as (c & s14 & [<- ->]%mret_Ok & Hrun).
  rewrite (broadcast2_same_length _ T Y1) in Hrun by lia.
  apply mbind_Ok in Hrun as (d & s15 & [<- ->]%mret_Ok & Hrun).
  rewrite (broadcast2_same_length fadd) in Hrun
    by (rewrite !length_zip_with, length_fmap; lia).
  apply mbind_Ok in Hrun as (Y & s16 & [<- ->]%mret_Ok & Hrun).
  apply mret_Ok in Hrun as [<- _].
  exists mu, Sigma, beta, X, T, Y0, Y1.
  rewrite Hmu, HSigma, Hbeta, HXbeta.
  assert (length beta = length mu) by (rewrite HXeq in Hal; done).
  repeat split; try done; congruence.
Qed.

Lemma observed_lookup T Y0 Y1 i t y0 y1 :
  T !! i = Some t → Y0 !! i = Some y0 → Y1 !! i = Some y1 →
  observed T Y0 Y1 !! i
  = Some (fadd (fmul (of_int (1 - t)) y0) (fmul (of_int t) y1)).
Proof.
  intros Ht Hy0 Hy1. unfold observed.
  rewrite !lookup_zip_with, list_lookup_fmap, Ht, Hy0, Hy1. reflexivity.
Qed.

(** C1.  In every 6-tuple returned with [unobservables=True], the observed
    outcome at each index [i < N] is the value of
    [(1 - T[i]) * Y0[i] + T[i] * Y1[i]], computed with the same float
    operations on the returned [T], [Y0] and [Y1]. *)
Theorem random_data_switching N K kwargs st Y T X Y0 Y1 pscore st' :
  random_data N K true kwargs st = Ok (Tuple6 Y T X Y0 Y1 pscore) st' →
  ∀ i, i < N →
    ∃ t y0 y1,
      T !! i = Some t ∧ Y0 !! i = Some y0 ∧ Y1 !! i = Some y1 ∧
      Y !! i = Some (fadd (fmul (of_int (1 - t)) y0) (fmul (of_int t) y1)).
Proof.
  intros Hrun i Hi.
  apply random_data_Ok in Hrun
    as (mu & Sigma & beta & X' & T' & Y0' & Y1' & _ & _ & _ & _ & _
        & HT & _ & HY0 & HY1 & Hr).
  simpl in Hr. injection Hr as -> -> -> -> -> ->.
  destruct (lookup_lt_is_Some_2 T' i) as [t Ht]; [lia|].
  destruct (lookup_lt_is_Some_2 Y0' i) as [y0 Hy0]; [lia|].
  destruct (lookup_lt_is_Some_2 Y1' i) as [y1 Hy1]; [lia|].
  exists t, y0, y1. repeat split; try done. by apply observed_lookup.
Qed.

(** C5.  With no keyword supplied and [K >= 1], a successful call returns
    [Y] and [T] of length [N] and [X] with [N] rows of [K] entries. *)
Theorem random_data_default_shapes N K unobservables st r st' :
  1 ≤ K →
  random_data N K unobservables ∅ st = Ok r st' →
  length (res_Y r) = N ∧ length (res_T r) = N ∧
  shape (res_X r) = (N, K) ∧
  Forall (λ row, length row = K) (rows (res_X r)).
Proof.
  intros _ Hrun.
  apply random_data_Ok in Hrun
    as (mu & Sigma & beta & X & T & Y0 & Y1 & Hmu & _ & _ & _ & HX
        & HT & _ & HY0 & HY1 & ->).
  unfold kwargs_get in Hmu. rewrite lookup_empty in Hmu. simpl in Hmu.
  injection Hmu as <-.
  assert (HK : length (np_zeros K) = K) by apply length_replicate.
  assert (Hres : ∀ Y Y0 Y1 ps,
            res_Y (assemble unobservables Y T X Y0 Y1 ps) = Y ∧
            res_T (assemble unobservables Y T X Y0 Y1 ps) = T ∧
            res_X (assemble unobservables Y T X Y0 Y1 ps) = X)
    by (intros; by destruct unobservables).
  destruct (Hres (observed T Y0 Y1) Y0 Y1
              (logistic_cdf <$> ((λ row, inner row beta) <$> rows X)))
    as (-> & -> & ->).
  split; [|split; [done|split]].
  - unfold observed. rewrite !length_zip_with, length_fmap. lia.
  - rewrite HX. unfold shape. rewrite sample_rows. simpl. by rewrite HK.
  - rewrite HX. simpl.
    eapply Forall_impl; [apply draw_normal_cols|]. simpl. intros row ->. done.
Qed.

(** C3.  A successful call returns the 6-tuple (Y, T, X, Y0, Y1, pscore)
    when [unobservables] is true and the 3-tuple (Y, T, X) otherwise, and
    every slot holds the array its name stands for: [X] is the covariate
    draw of line 50, [pscore] the logistic CDF of [X.dot(beta)], [T] the
    treatment draws from [pscore], [Y0] and [Y1] the two potential outcomes
    of lines 56 and 57 over the error draw of line 55, and [Y] the observed
    outcome of line 58.  The call with the other flag, from the same state,
    returns the other tuple of the same arrays and leaves the same state. *)
Theorem random_data_tuple N K unobservables kwargs st r st' :
  random_data N K unobservables kwargs st = Ok r st' →
  ∃ Y T X Y0 Y1 pscore,
    r = (if unobservables then Tuple6 Y T X Y0 Y1 pscore else Tuple3 Y T X) ∧
    (∃ mu beta theta delta Sigma Gamma bt epsilon s1 s2,
       in_use K kwargs mu beta theta delta Sigma Gamma ∧
       multivariate_normal (PyVec mu) (PyMat Sigma) N CheckWarn st = Ok X s1 ∧
       pscore = logistic_cdf <$> linear_predictor X beta ∧
       binomial_each pscore s1 = Ok T s2 ∧
       multivariate_normal (PyVec (np_zeros 2)) (PyMat Gamma) N CheckWarn s2
       = Ok epsilon st' ∧
       Y0 = zip_with fadd (linear_predictor X beta) (column_values epsilon 0) ∧
       add_arrays beta theta st' = Ok bt st' ∧
       Y1 = zip_with fadd (fadd delta <$> linear_predictor X bt)
              (column_values epsilon 1) ∧
       Y = observed T Y0 Y1) ∧
    random_data N K (negb unobservables) kwargs st
    = Ok (if negb unobservables then Tuple6 Y T X Y0 Y1 pscore
          else Tuple3 Y T X) st'.
Proof.
  intros Hrun. unfold random_data in Hrun.
  apply mbind_Ok in Hrun as (X & s1 & HX & Hrun).
  apply mbind_Ok in Hrun as (beta & s2 & Hbeta & Hrun).
  apply mbind_Ok in Hrun as (Xbeta & s3 & HXbeta & Hrun).
  apply mbind_Ok in Hrun as (T & s4 & HT & Hrun).
  apply mbind_Ok in Hrun as (eps & s5 & Heps & Hrun).
  apply mbind_Ok in Hrun as (eps0 & s6 & Heps0 & Hrun).
  apply mbind_Ok in Hrun as (Y0 & s7 & HY0 & Hrun).
  apply mbind_Ok in Hrun as (theta & s8 & Htheta & Hrun).
  apply mbind_Ok in Hrun as (bt & s9 & Hbt & Hrun).
  apply mbind_Ok in Hrun as (Xbt & s10 & HXbt & Hrun).
  apply mbind_Ok in Hrun as (delta & s11 & Hdelta & Hrun).
  apply mbind_Ok in Hrun as (eps1 & s12 & Heps1 & Hrun).
  apply mbind_Ok in Hrun as (Y1 & s13 & HY1 & Hrun).
  apply mbind_Ok in Hrun as (c & s14 & Hc & Hrun).
  apply mbind_Ok in Hrun as (d & s15 & Hd & Hrun).
  apply mbind_Ok in Hrun as (Y & s16 & HY & Hrun).
  apply mret_Ok in Hrun as [<- <-].
  exists Y, T, X, Y0, Y1, (logistic_cdf <$> Xbeta).
  split; [done|]. split.
  2: { unfold random_data.
       rewrite (mbind_step _ _ _ _ _ HX), (mbind_step _ _ _ _ _ Hbeta),
         (mbind_step _ _ _ _ _ HXbeta), (mbind_step _ _ _ _ _ HT),
         (mbind_step _ _ _ _ _ Heps), (mbind_step _ _ _ _ _ Heps0),
         (mbind_step _ _ _ _ _ HY0), (mbind_step _ _ _ _ _ Htheta),
         (mbind_step _ _ _ _ _ Hbt), (mbind_step _ _ _ _ _ HXbt),
         (mbind_step _ _ _ _ _ Hdelta), (mbind_step _ _ _ _ _ Heps1),
         (mbind_step _ _ _ _ _ HY1), (mbind_step _ _ _ _ _ Hc),
         (mbind_step _ _ _ _ _ Hd), (mbind_step _ _ _ _ _ HY).
       done. }
  pose proof HX as HX'.
  apply multivariate_normal_Ok in HX'
    as (mu & Sigma & Hmu & HSigma & _ & _ & _ & HXeq & _).
  apply as_vec_Ok in Hbeta as [Hbeta ->].
  apply dot_Ok in HXbeta as (_ & -> & ->).
  pose proof HT as [HTlen _]%binomial_each_Ok.
  pose proof Heps as Heps'.
  apply multivariate_normal_Ok in Heps'
    as (zero2 & Gamma & [= <-] & HGamma & _ & _ & _ & Hepseq & _).
  apply column_Ok in Heps0 as (_ & -> & ->).
  apply as_vec_Ok in Htheta as [Htheta Hs8].
  pose proof Hbt as Hs9%broadcast2_Ok_state.
  apply dot_Ok in HXbt as (_ & -> & Hs10).
  apply as_num_Ok in Hdelta as [Hdelta Hs11].
  apply column_Ok in Heps1 as (_ & -> & Hs12).
  assert (HXN : length (rows X) = N).
  { rewrite HXeq. apply draw_normal_rows. }
  assert (HepsN : length (rows eps) = N).
  { rewrite Hepseq. apply draw_normal_rows. }
  rewrite !length_fmap in HTlen.
  unfold add_arrays, mul_int_float in HY0, HY1, Hc, Hd, HY.
  rewrite broadcast2_same_length in HY0 by (rewrite !length_fmap; congruence).
  apply mret_Ok in HY0 as [<- Hs7].
  rewrite broadcast2_same_length in HY1 by (rewrite !length_fmap; congruence).
  apply mret_Ok in HY1 as [<- Hs13].
  rewrite broadcast2_same_length in Hc
    by (rewrite length_zip_with, !length_fmap; lia).
  apply mret_Ok in Hc as [<- Hs14].
  rewrite broadcast2_same_length in Hd
    by (rewrite length_zip_with, !length_fmap; lia).
  apply mret_Ok in Hd as [<- Hs15].
  rewrite broadcast2_same_length in HY
    by (rewrite !length_zip_with, !length_fmap; lia).
  apply mret_Ok in HY as [<- Hs16].
  assert (s16 = s5) as -> by congruence.
  assert (s9 = s5) as -> by congruence.
  assert (s8 = s5) as -> by congruence.
  exists mu, beta, theta, delta, Sigma, Gamma, bt, eps, s1, s4.
  split; [by repeat split|].
  rewrite <- Hmu, <- HSigma, <- HGamma. by repeat split.
Qed.

End RandomDataFacts.

(** ** The executable instance meets the contract *)

Section RefContract.
Import Ref.

Lemma std_normals_length n : ∀ g, length (std_normals n g).1 = n.
Proof.
  induction n as [|n IH]; intros g; cbn [std_normals]; [done|].
  destruct (std_normal g) as [z g1]. specialize (IH g1).
  destruct (std_normals n g1) as [zs g2]. simpl in *. by f_equal.
Qed.

Lemma draw_row_length mean cov g : length (draw_row mean cov g).1 = length mean.
Proof.
  unfold draw_row. destruct (std_normals (length mean) g) as [z g'].
  simpl. apply length_imap.
Qed.

Lemma draw_rows_rows mean cov size : ∀ g,
  length (draw_rows mean cov size g).1 = size.
Proof.
  induction size as [|n IH]; intros g; cbn [draw_rows]; [done|].
  destruct (draw_row mean cov g) as [r g1]. specialize (IH g1).
  destruct (draw_rows mean cov n g1) as [rs g2]. simpl in *. by f_equal.
Qed.

Lemma draw_rows_cols mean cov size : ∀ g,
  Forall (λ row, length row = length mean) (draw_rows mean cov size g).1.
Proof.
  induction size as [|n IH]; intros g; cbn [draw_rows]; [by constructor|].
  pose proof (draw_row_length mean cov g) as Hr.
  destruct (draw_row mean cov g) as [r g1]. specialize (IH g1).
  destruct (draw_rows mean cov n g1) as [rs g2]. simpl in *.
  by constructor.
Qed.

Global Instance ref_contract : NumPyContract (F := Q) (G := Z).
Proof.
  split.
  - intros mean cov size g. apply draw_rows_rows.
  - intros mean cov size g. apply draw_rows_cols.
Qed.

End RefContract.

(** ** random_data: running a call forward *)

Section ForwardFacts.
Context {F G : Type} `{!NumPy F G}.
Implicit Types (st s : @state G) (kwargs : gmap string (@pyval F)).

Lemma mbind_mret {A B} (a : A) (k : A → M B) st :
  (mret a ≫= k) st = k a st.
Proof. reflexivity. Qed.

(** A draw with conforming shapes and a convergent decomposition succeeds
    under [check_valid='warn'], whatever the validity test says; the test
    only decides whether a warning is recorded. *)
Lemma multivariate_normal_warn m c size st :
  nrows c = ncols c → length m = nrows c → length m ≠ 0 →
  cov_status (rows c) ≠ CovNoSVD →
  multivariate_normal (PyVec m) (PyMat c) size CheckWarn st
  = Ok (Matrix (length m) (draw_normal m (rows c) size (rng st)).1)
       (State (draw_normal m (rows c) size (rng st)).2
              (warnings st ++ cov_warning c)).
Proof.
  intros Hsq Hlen Hne Hsvd. unfold multivariate_normal, cov_warning.
  destruct (Nat.eqb_spec (nrows c) (ncols c)); [|done].
  destruct (Nat.eqb_spec (length m) (nrows c)); [|done].
  destruct (Nat.eqb_spec (length m) 0); [done|]. simpl.
  unfold mbind, M_bind, bind, sample_normal.
  destruct (cov_status (rows c)); [| |done].
  - unfold mret, M_ret, ret. simpl. by rewrite app_nil_r.
  - reflexivity.
Qed.

(** State-level forms of the pure steps, for rewriting the head of a run. *)
Lemma dot_run X b st :
  ncols X = length b → dot X b st = Ok ((λ row, inner row b) <$> rows X) st.
Proof. intros Hal. by rewrite dot_aligned. Qed.

Lemma column_run m j st :
  j < ncols m →
  column m j st = Ok ((λ row, default (of_int 0) (row !! j)) <$> rows m) st.
Proof. intros Hj. by rewrite column_in_range. Qed.

Lemma broadcast2_run {A B C} (f : A → B → C) a b st :
  length a = length b → broadcast2 f a b st = Ok (zip_with f a b) st.
Proof. intros Hl. by rewrite broadcast2_same_length. Qed.

Lemma multivariate_normal_bad_shape m c size mode st :
  nrows c ≠ ncols c ∨ length m ≠ nrows c →
  ∃ what,
    multivariate_normal (PyVec m) (PyMat c) size mode st
    = Raise (ShapeMismatch what).
Proof.
  intros Hbad. unfold multivariate_normal.
  destruct (Nat.eqb_spec (nrows c) (ncols c)) as [Hsq|Hsq]; simpl;
    [|by eexists].
  destruct (Nat.eqb_spec (length m) (nrows c)) as [Hlen|Hlen]; simpl;
    [|by eexists].
  by destruct Hbad.
Qed.

(** A mean with no entry passes the shape checks against a [0 x 0]
    covariance and fails in the draw. *)
Lemma multivariate_normal_empty_mean m c size mode st :
  nrows c = ncols c → length m = nrows c → length m = 0 →
  multivariate_normal (PyVec m) (PyMat c) size mode st
  = Raise (ShapeMismatch "cannot reshape array of size 0 into shape (0)").
Proof.
  intros Hsq Hlen Hz. unfold multivariate_normal.
  destruct (Nat.eqb_spec (nrows c) (ncols c)); [|done].
  destruct (Nat.eqb_spec (length m) (nrows c)); [|done].
  by destruct (Nat.eqb_spec (length m) 0).
Qed.

End ForwardFacts.

Section EmptyCall.
Context {F G : Type} `{!NumPy F G} `{!NumPyContract}.
Implicit Types (st s : @state G) (kwargs : gmap string (@pyval F)).

Lemma draw_normal_zero mean cov g : (draw_normal mean cov 0 g).1 = [].
Proof. apply nil_length_inv, draw_normal_rows. Qed.

(** C6.  With [N = 0] and parameters that satisfy the data model's
    invariants ([K >= 1] among them), the call returns, and [Y], [T], [Y0],
    [Y1], [pscore] are empty and [X] has no rows. *)
Theorem random_data_empty K unobservables kwargs st :
  valid_params K kwargs →
  ∃ X st',
    random_data 0 K unobservables kwargs st
    = Ok (if unobservables then Tuple6 [] [] X [] [] [] else Tuple3 [] [] X) st'
    ∧ rows X = [] ∧ shape X = (0, K).
Proof.
  intros (HK & mu & beta & theta & delta & Sigma & Gamma & Hmu & Hbeta
          & Htheta & Hdelta & HSigma & HGamma & Lmu & Lbeta & Ltheta
          & [= SS1 SS2] & [= SG1 SG2] & VS & VG).
  unfold random_data, add_arrays, mul_int_float.
  rewrite Hmu, Hbeta, Htheta, Hdelta, HSigma, HGamma.
  unfold mbind, M_bind, bind, as_vec, as_num, mret, M_ret, ret.
  rewrite multivariate_normal_warn by (congruence || lia).
  rewrite draw_normal_zero. cbv beta iota.
  rewrite dot_run by (simpl; congruence). cbv beta iota.
  cbn [rows fmap list_fmap binomial_each].
  unfold mret, M_ret, ret. cbv beta iota.
  rewrite multivariate_normal_warn
    by (try rewrite SG1; try rewrite VG; done || congruence).
  rewrite draw_normal_zero. cbv beta iota.
  rewrite column_run by (simpl; lia). cbv beta iota.
  cbn [rows fmap list_fmap].
  rewrite broadcast2_run by done. cbv beta iota.
  rewrite (broadcast2_run fadd beta theta) by congruence. cbv beta iota.
  rewrite dot_run by (simpl; rewrite length_zip_with; lia). cbv beta iota.
  rewrite column_run by (simpl; lia). cbv beta iota.
  cbn [rows fmap list_fmap].
  rewrite broadcast2_run by done. cbv beta iota.
  rewrite broadcast2_run by done. cbv beta iota.
  rewrite broadcast2_run by done. cbv beta iota.
  rewrite broadcast2_run by done. cbv beta iota.
  cbn [zip_with].
  eexists _, _. split; [reflexivity|]. split; [done|].
  unfold shape, nrows. simpl. by rewrite Lmu.
Qed.

End EmptyCall.

(** ** random_data: shape errors *)

Section ShapeErrors.
Context {F G : Type} `{!NumPy F G}.
Implicit Types (st s : @state G) (kwargs : gmap string (@pyval F)).

Lemma mbind_passes {A B} (m : M A) (k : A → M B) st :
  m st ≠ Unmodelled → passes ((m ≫= k) st) →
  ∃ a st1, m st = Ok a st1 ∧ passes (k a st1).
Proof.
  unfold passes, mbind, M_bind, bind. intros Hmod Hp.
  destruct (m st) as [a st1|e|]; [by exists a, st1 | by destruct (Hp e) | done].
Qed.

Lemma not_passes {A} (o : @outcome G A) :
  o ≠ Unmodelled → (∀ a st, o ≠ Ok a st) → ∃ e, o = Raise e.
Proof. destruct o as [a st|e|]; [by intros _ Hok; destruct (Hok a st) | by exists e | done]. Qed.

Lemma multivariate_normal_modelled mean cov size mode st :
  multivariate_normal mean cov size mode st ≠ Unmodelled.
Proof.
  unfold multivariate_normal.
  destruct mean as [|m|]; try done. destruct cov as [| |c]; try done.
  destruct (negb (nrows c =? ncols c)); [done|].
  destruct (negb (length m =? nrows c)); [done|].
  destruct (length m =? 0); [done|].
  unfold mbind, M_bind, bind, sample_normal.
  destruct (cov_status (rows c)); try done. by destruct mode.
Qed.

Lemma dot_modelled X b st : dot X b st ≠ Unmodelled.
Proof. unfold dot. by destruct (ncols X =? length b). Qed.

Lemma column_modelled m j st : column m j st ≠ Unmodelled.
Proof. unfold column. by destruct (j <? ncols m). Qed.

Lemma broadcast2_modelled {A B C} (f : A → B → C) a b st :
  broadcast2 f a b st ≠ Unmodelled.
Proof.
  unfold broadcast2. destruct (length a =? length b); [done|].
  by destruct a as [|x [|x' a]], b as [|y [|y' b]].
Qed.

Lemma binomial_each_modelled pscore : ∀ st,
  binomial_each pscore st ≠ Unmodelled.
Proof.
  induction pscore as [|p ps IH]; intros st; [done|].
  cbn [binomial_each]. unfold mbind, M_bind, bind.
  unfold binomial1 at 1. destruct (prob_ok p); [|done].
  specialize (IH (State (bernoulli p (rng st)).2 (warnings st))).
  by destruct (binomial_each ps _).
Qed.

(** A successful broadcast combined equal lengths or stretched a length-1
    operand to the length of the other. *)
Lemma broadcast2_Ok_length {A B C} (f : A → B → C) a b st c st' :
  broadcast2 f a b st = Ok c st' →
  length a = length b ∨
  (length a = 1 ∧ length c = length b) ∨
  (length b = 1 ∧ length c = length a).
Proof.
  unfold broadcast2. destruct (Nat.eqb_spec (length a) (length b)); [by left|].
  destruct a as [|x [|x' a]], b as [|y [|y' b]]; try done;
    intros [= <- _]; simpl; rewrite ?length_fmap; auto.
Qed.

(** If the call does not raise, [theta] could be added to [beta]: it has
    the length of [beta], or length 1. *)
Lemma theta_conforms N K unobservables kwargs st beta theta :
  kwargs_get kwargs "beta" (PyVec (np_ones K)) = PyVec beta →
  kwargs_get kwargs "theta" (PyVec (np_ones K)) = PyVec theta →
  passes (random_data N K unobservables kwargs st) →
  length theta = length beta ∨ length theta = 1.
Proof.
  intros Hbeta Htheta. unfold random_data, add_arrays.
  rewrite Hbeta, Htheta. intros Hp.
  apply mbind_passes in Hp as (X & s1 & _ & Hp);
    [|apply multivariate_normal_modelled].
  apply mbind_passes in Hp as (b & s2 & [= <- <-] & Hp); [|done].
  apply mbind_passes in Hp as (Xbeta & s3 & HXbeta & Hp);
    [|apply dot_modelled].
  apply dot_Ok in HXbeta as (Hal & _ & _).
  apply mbind_passes in Hp as (T & s4 & _ & Hp);
    [|apply binomial_each_modelled].
  apply mbind_passes in Hp as (eps & s5 & _ & Hp);
    [|apply multivariate_normal_modelled].
  apply mbind_passes in Hp as (eps0 & s6 & _ & Hp); [|apply column_modelled].
  apply mbind_passes in Hp as (Y0 & s7 & _ & Hp);
    [|apply broadcast2_modelled].
  apply mbind_passes in Hp as (th & s8 & [= <- <-] & Hp); [|done].
  apply mbind_passes in Hp as (bt & s9 & Hbt & Hp);
    [|apply broadcast2_modelled].
  apply mbind_passes in Hp as (Xbt & s10 & HXbt & _); [|apply dot_modelled].
  apply dot_Ok in HXbt as (Hal' & _ & _).
  apply broadcast2_Ok_length in Hbt as [?|[[? ?]|[? ?]]]; [left|right|right];
    congruence.
Qed.

(** C7, as the code has it.  [K] only sizes the defaults; what must agree
    are the parameters in use.  A [Sigma] that is not square or a [mu] whose
    length is not [Sigma]'s dimension raises a shape-mismatch error; once
    the draw of [X] goes through, a [beta] whose length differs from [mu]'s
    raises a shape-mismatch error, in particular a supplied [beta] of length
    other than [K] when [mu] and [Sigma] are left at their defaults; and a
    [theta] whose length is neither 1 nor [beta]'s makes the call fail.  In
    each case the call returns nothing. *)
Theorem random_data_shape_errors N K unobservables kwargs st :
  (∀ mu Sigma,
     kwargs_get kwargs "mu" (PyVec (np_zeros K)) = PyVec mu →
     kwargs_get kwargs "Sigma" (PyMat (np_identity K)) = PyMat Sigma →
     nrows Sigma ≠ ncols Sigma ∨ length mu ≠ nrows Sigma →
     ∃ what,
       random_data N K unobservables kwargs st = Raise (ShapeMismatch what))
  ∧ (∀ mu Sigma beta,
       kwargs_get kwargs "mu" (PyVec (np_zeros K)) = PyVec mu →
       kwargs_get kwargs "Sigma" (PyMat (np_identity K)) = PyMat Sigma →
       kwargs_get kwargs "beta" (PyVec (np_ones K)) = PyVec beta →
       nrows Sigma = ncols Sigma → length mu = nrows Sigma →
       cov_status (rows Sigma) ≠ CovNoSVD →
       length beta ≠ length mu →
       ∃ what,
         random_data N K unobservables kwargs st = Raise (ShapeMismatch what))
  ∧ (∀ beta,
       kwargs !! "mu" = None → kwargs !! "Sigma" = None →
       kwargs !! "beta" = Some (PyVec beta) →
       cov_status (rows (np_identity K)) ≠ CovNoSVD →
       length beta ≠ K →
       ∃ what,
         random_data N K unobservables kwargs st = Raise (ShapeMismatch what))
  ∧ (∀ beta theta,
       kwargs_get kwargs "beta" (PyVec (np_ones K)) = PyVec beta →
       kwargs_get kwargs "theta" (PyVec (np_ones K)) = PyVec theta →
       length theta ≠ length beta → length theta ≠ 1 →
       ∃ e, random_data N K unobservables kwargs st = Raise e).
Proof.
  assert (Hbeta_case : ∀ mu Sigma beta,
    kwargs_get kwargs "mu" (PyVec (np_zeros K)) = PyVec mu →
    kwargs_get kwargs "Sigma" (PyMat (np_identity K)) = PyMat Sigma →
    kwargs_get kwargs "beta" (PyVec (np_ones K)) = PyVec beta →
    nrows Sigma = ncols Sigma → length mu = nrows Sigma →
    cov_status (rows Sigma) ≠ CovNoSVD →
    length beta ≠ length mu →
    ∃ what,
      random_data N K unobservables kwargs st = Raise (ShapeMismatch what)).
  { intros mu Sigma beta Hmu HSigma Hbeta Hsq Hlen Hsvd Hne.
    unfold random_data. rewrite Hmu, HSigma, Hbeta.
    unfold mbind, M_bind, bind, as_vec, mret, M_ret, ret.
    destruct (Nat.eq_dec (length mu) 0) as [Hz|Hnz].
    { rewrite multivariate_normal_empty_mean by done. by eexists. }
    rewrite multivariate_normal_warn by done. cbv beta iota.
    rewrite dot_misaligned by (simpl; congruence). by eexists. }
  split; [|split; [exact Hbeta_case|split]].
  - intros mu Sigma Hmu HSigma Hbad.
    unfold random_data. rewrite Hmu, HSigma.
    destruct (multivariate_normal_bad_shape mu Sigma N CheckWarn st Hbad)
      as [what Hraise].
    exists what. by apply mbind_fail.
  - intros beta Hmu HSigma Hbeta Hsvd Hne.
    apply (Hbeta_case (np_zeros K) (np_identity K) beta).
    + unfold kwargs_get. by rewrite Hmu.
    + unfold kwargs_get. by rewrite HSigma.
    + unfold kwargs_get. by rewrite Hbeta.
    + unfold nrows, np_identity. simpl. by rewrite length_fmap, length_seq.
    + unfold nrows, np_zeros, np_identity. simpl.
      by rewrite length_replicate, length_fmap, length_seq.
    + exact Hsvd.
    + unfold np_zeros. by rewrite length_replicate.
  - intros beta theta Hbeta Htheta Hne Hne1.
    destruct (random_data N K unobservables kwargs st) as [r st'|e|] eqn:Hrun;
      [exfalso|by exists e|exfalso].
    + destruct (theta_conforms N K unobservables kwargs st beta theta)
        as [?|?]; try done. by rewrite Hrun.
    + destruct (theta_conforms N K unobservables kwargs st beta theta)
        as [?|?]; try done. by rewrite Hrun.
Qed.

End ShapeErrors.

(** ** random_data: which exceptions and warnings a call can produce *)

Section CovarianceFacts.
Context {F G : Type} `{!NumPy F G}.
Implicit Types (st s : @state G) (kwargs : gmap string (@pyval F)).

Lemma raises_within_bind {A B} P (m : M A) (k : A → M B) :
  raises_within (G := G) P m → (∀ a, raises_within (G := G) P (k a)) →
  raises_within (G := G) P (m ≫= k).
Proof.
  intros Hm Hk st e [Hr|(a & st1 & _ & Hr)]%mbind_Raise;
    [by eapply Hm | by eapply Hk].
Qed.

Lemma raises_within_ret {A} P (a : A) : raises_within (G := G) P (mret a).
Proof. by intros st e. Qed.

Lemma raises_within_as_vec P (v : @pyval F) : raises_within (G := G) P (as_vec v).
Proof. intros st e. by destruct v. Qed.

Lemma raises_within_as_num P (v : @pyval F) : raises_within (G := G) P (as_num v).
Proof. intros st e. by destruct v. Qed.

(** Under [check_valid='warn'] the sampler has no path that raises the
    invalid-covariance error. *)
Lemma multivariate_normal_warn_raises mean cov size :
  raises_within (G := G) (λ e, e ≠ CovarianceNotPSD)
    (multivariate_normal mean cov size CheckWarn).
Proof.
  intros st e. unfold multivariate_normal.
  destruct mean as [|m|]; try (by intros [= <-]).
  destruct cov as [| |c]; try (by intros [= <-]).
  destruct (negb (nrows c =? ncols c)); [by intros [= <-]|].
  destruct (negb (length m =? nrows c)); [by intros [= <-]|].
  destruct (length m =? 0); [by intros [= <-]|].
  unfold mbind, M_bind, bind, sample_normal.
  destruct (cov_status (rows c)); try done. by intros [= <-].
Qed.

Lemma dot_raises X b :
  raises_within (G := G) (λ e, e ≠ CovarianceNotPSD) (dot X b).
Proof.
  intros st e. unfold dot. destruct (ncols X =? length b); [done|].
  by intros [= <-].
Qed.

Lemma column_raises m j :
  raises_within (G := G) (λ e, e ≠ CovarianceNotPSD) (column m j).
Proof.
  intros st e. unfold column. destruct (j <? ncols m); [done|].
  by intros [= <-].
Qed.

Lemma broadcast2_raises {A B C} (f : A → B → C) a b :
  raises_within (G := G) (λ e, e ≠ CovarianceNotPSD) (broadcast2 f a b).
Proof.
  intros st e [what ->]%broadcast2_not_Raise. done.
Qed.

Lemma binomial_each_raises pscore :
  raises_within (G := G) (λ e, e ≠ CovarianceNotPSD) (binomial_each pscore).
Proof.
  induction pscore as [|p ps IH]; cbn [binomial_each].
  - apply raises_within_ret.
  - apply raises_within_bind.
    + intros st e. unfold binomial1. destruct (prob_ok p); [done|].
      by intros [= <-].
    + intros t. apply raises_within_bind; [exact IH|].
      intros ts. apply raises_within_ret.
Qed.

Lemma binomial_each_warnings pscore : ∀ st T st',
  binomial_each pscore st = Ok T st' → warnings st' = warnings st.
Proof.
  induction pscore as [|p ps IH]; intros st T st'; cbn [binomial_each].
  - by intros [_ <-]%mret_Ok.
  - intros (t & st1 & Ht & Hk)%mbind_Ok.
    apply mbind_Ok in Hk as (ts & st2 & Hts & [_ <-]%mret_Ok).
    apply binomial1_Ok in Ht as [_ Ht]. apply IH in Hts. congruence.
Qed.

Lemma multivariate_normal_warn_Ok m c size st X st' :
  multivariate_normal (PyVec m) (PyMat c) size CheckWarn st = Ok X st' →
  warnings st' = warnings st ++ cov_warning c.
Proof.
  intros Hrun. pose proof Hrun as Hinv. pose proof Hrun as Hne.
  apply multivariate_normal_Ok in Hinv
    as (m' & c' & [= <-] & [= <-] & Hsq & Hlen & Hsvd & _ & _).
  apply multivariate_normal_Ok_nonempty in Hne as (m' & [= <-] & Hne).
  rewrite multivariate_normal_warn in Hrun by done.
  by injection Hrun as _ <-.
Qed.

(** The warnings a successful call leaves behind: one per covariance
    argument that fails the validity test, in the order of the two draws. *)
Lemma random_data_warnings N K u kwargs st r st' Sigma Gamma :
  kwargs_get kwargs "Sigma" (PyMat (np_identity K)) = PyMat Sigma →
  kwargs_get kwargs "Gamma" (PyMat (np_identity 2)) = PyMat Gamma →
  random_data N K u kwargs st = Ok r st' →
  warnings st' = warnings st ++ cov_warning Sigma ++ cov_warning Gamma.
Proof.
  intros HSigma HGamma. unfold random_data, add_arrays, mul_int_float.
  rewrite HSigma, HGamma. intros Hrun.
  apply mbind_Ok in Hrun as (X & s1 & HX & Hrun).
  pose proof HX as HX'.
  apply multivariate_normal_Ok in HX' as (mu & ? & Hmu & _).
  rewrite Hmu in HX. apply multivariate_normal_warn_Ok in HX.
  apply mbind_Ok in Hrun as (beta & s2 & [_ ->]%as_vec_Ok & Hrun).
  apply mbind_Ok in Hrun as (Xbeta & s3 & (_ & _ & ->)%dot_Ok & Hrun).
  apply mbind_Ok in Hrun as (T & s4 & HT%binomial_each_warnings & Hrun).
  apply mbind_Ok in Hrun as (eps & s5 & Heps%multivariate_normal_warn_Ok & Hrun).
  apply mbind_Ok in Hrun as (eps0 & s6 & (_ & _ & ->)%column_Ok & Hrun).
  apply mbind_Ok in Hrun as (Y0 & s7 & ->%broadcast2_Ok_state & Hrun).
  apply mbind_Ok in Hrun as (theta & s8 & [_ ->]%as_vec_Ok & Hrun).
  apply mbind_Ok in Hrun as (bt & s9 & ->%broadcast2_Ok_state & Hrun).
  apply mbind_Ok in Hrun as (Xbt & s10 & (_ & _ & ->)%dot_Ok & Hrun).
  apply mbind_Ok in Hrun as (delta & s11 & [_ ->]%as_num_Ok & Hrun).
  apply mbind_Ok in Hrun as (eps1 & s12 & (_ & _ & ->)%column_Ok & Hrun).
  apply mbind_Ok in Hrun as (Y1 & s13 & ->%broadcast2_Ok_state & Hrun).
  apply mbind_Ok in Hrun as (c & s14 & ->%broadcast2_Ok_state & Hrun).
  apply mbind_Ok in Hrun as (d & s15 & ->%broadcast2_Ok_state & Hrun).
  apply mbind_Ok in Hrun as (Y & s16 & ->%broadcast2_Ok_state & Hrun).
  apply mret_Ok in Hrun as [_ <-].
  rewrite Heps, HT, HX. by rewrite <- app_assoc.
Qed.

End CovarianceFacts.

(** ** random_data: determinism, keywords, and the ranges of T and pscore *)

Section CallFacts.
Context {F G : Type} `{!NumPy F G}.
Implicit Types (st s : @state G) (kwargs : gmap string (@pyval F)).

Lemma rng_only_ret {A} (a : A) : rng_only (G := G) (mret a).
Proof. by intros s1 s2 Hg. Qed.

Lemma rng_only_raise {A} e : rng_only (G := G) (raise (A := A) e).
Proof. by intros s1 s2 Hg. Qed.

Lemma rng_only_bind {A B} (m : M A) (k : A → M B) :
  rng_only m → (∀ a, rng_only (G := G) (k a)) → rng_only (G := G) (m ≫= k).
Proof.
  intros Hm Hk s1 s2 Hg. specialize (Hm s1 s2 Hg).
  unfold mbind, M_bind, bind.
  destruct (m s1) as [a t1|e1|], (m s2) as [b t2|e2|]; try done.
  destruct Hm as [<- Ht]. by apply Hk.
Qed.

Lemma rng_only_as_vec (v : @pyval F) : rng_only (G := G) (as_vec v).
Proof. intros s1 s2 Hg. by destruct v. Qed.

Lemma rng_only_as_num (v : @pyval F) : rng_only (G := G) (as_num v).
Proof. intros s1 s2 Hg. by destruct v. Qed.

Lemma rng_only_dot X b : rng_only (G := G) (dot X b).
Proof. intros s1 s2 Hg. unfold dot. by destruct (ncols X =? length b). Qed.

Lemma rng_only_column m j : rng_only (G := G) (column m j).
Proof. intros s1 s2 Hg. unfold column. by destruct (j <? ncols m). Qed.

Lemma rng_only_broadcast2 {A B C} (f : A → B → C) a b :
  rng_only (G := G) (broadcast2 f a b).
Proof.
  intros s1 s2 Hg. unfold broadcast2. destruct (length a =? length b); [done|].
  by destruct a as [|x [|x' a]], b as [|y [|y' b]].
Qed.

Lemma rng_only_multivariate_normal mean cov size mode :
  rng_only (G := G) (multivariate_normal mean cov size mode).
Proof.
  intros s1 s2 Hg. unfold multivariate_normal.
  destruct mean as [|m|]; try done. destruct cov as [| |c]; try done.
  destruct (negb (nrows c =? ncols c)); [done|].
  destruct (negb (length m =? nrows c)); [done|].
  destruct (length m =? 0); [done|].
  unfold mbind, M_bind, bind, sample_normal. rewrite Hg.
  destruct (cov_status (rows c)); try done. by destruct mode.
Qed.

Lemma rng_only_binomial1 p : rng_only (G := G) (binomial1 p).
Proof.
  intros s1 s2 Hg. unfold binomial1. destruct (prob_ok p); [|done].
  simpl. by rewrite Hg.
Qed.

Lemma rng_only_binomial_each pscore : rng_only (G := G) (binomial_each pscore).
Proof.
  induction pscore as [|p ps IH]; cbn [binomial_each].
  - apply rng_only_ret.
  - apply rng_only_bind; [apply rng_only_binomial1|].
    intros t. apply rng_only_bind; [exact IH|].
    intros ts. apply rng_only_ret.
Qed.

Lemma rng_only_random_data N K u kwargs :
  rng_only (G := G) (random_data N K u kwargs).
Proof.
  unfold random_data, add_arrays, mul_int_float.
  repeat first
    [ apply rng_only_ret
    | apply rng_only_bind; [|intros ?]
    | apply rng_only_multivariate_normal
    | apply rng_only_as_vec
    | apply rng_only_as_num
    | apply rng_only_dot
    | apply rng_only_column
    | apply rng_only_broadcast2
    | apply rng_only_binomial_each ].
Qed.

Lemma agree_returned {A} (o1 o2 : @outcome G A) :
  agree o1 o2 → returned o1 = returned o2.
Proof.
  destruct o1 as [a s1|e1|], o2 as [b s2|e2|]; simpl; try done.
  - by intros [-> _].
  - by intros ->.
Qed.

(** C9.  The outcome of [random_data] is a function of its arguments and of
    the generator's state alone: two calls with the same arguments from
    states with equal generators return the same tuple (or raise the same
    exception) and leave equal generators; in particular two calls made
    right after [np.random.seed(s)] with the same [s] return the same,
    whatever the process did before. *)
Theorem random_data_deterministic N K unobservables kwargs :
  (∀ st1 st2, rng st1 = rng st2 →
     agree (random_data N K unobservables kwargs st1)
           (random_data N K unobservables kwargs st2)
     ∧ returned (random_data N K unobservables kwargs st1)
       = returned (random_data N K unobservables kwargs st2))
  ∧ (∀ (sd : Z) st1 st2,
       returned (seeded_call sd N K unobservables kwargs st1)
       = returned (seeded_call sd N K unobservables kwargs st2)).
Proof.
  split.
  - intros st1 st2 Hg.
    pose proof (rng_only_random_data N K unobservables kwargs st1 st2 Hg).
    split; [done | by apply agree_returned].
  - intros sd st1 st2. unfold seeded_call, np_random_seed.
    change (returned (random_data N K unobservables kwargs
                        (State (seed sd) (warnings st1)))
            = returned (random_data N K unobservables kwargs
                          (State (seed sd) (warnings st2)))).
    apply agree_returned. by apply rng_only_random_data.
Qed.

(** X4.  Every entry of the treatment vector of a call that returns is 0 or
    1, whatever parameters were supplied. *)
Lemma random_data_T_binary N K unobservables kwargs st r st' :
  random_data N K unobservables kwargs st = Ok r st' →
  Forall (λ t, t = 0 ∨ t = 1)%Z (res_T r).
Proof.
  unfold random_data.
  repeat (let a := fresh "a" in
          let s := fresh "s" in
          let Ha := fresh "Ha" in
          intros (a & s & Ha & Hrun)%mbind_Ok; revert Hrun).
  intros [<- _]%mret_Ok.
  match goal with
  | Hb : binomial_each _ _ = Ok ?T _ |- _ =>
      apply binomial_each_Ok in Hb as [_ Hb]; by destruct unobservables
  end.
Qed.

(** C4, as the code has it.  Every entry of the returned [T] is 0 or 1,
    and every entry [p] of the returned [pscore] passed the argument check
    of [np.random.binomial]: [0 <= p] and [p <= 1], so [p] is not NaN.  The
    bounds are closed: in [float64] the logistic CDF rounds to exactly 1 at a
    large finite argument and to exactly 0 at a very negative one. *)
Theorem random_data_T_pscore_range N K unobservables kwargs st r st' :
  random_data N K unobservables kwargs st = Ok r st' →
  Forall (λ t, t = 0 ∨ t = 1)%Z (res_T r) ∧
  ∀ Y T X Y0 Y1 pscore,
    r = Tuple6 Y T X Y0 Y1 pscore →
    Forall (λ p, fle (of_int 0) p = true ∧ fle p (of_int 1) = true) pscore.
Proof.
  unfold random_data.
  intros (X & s1 & _ & Hrun)%mbind_Ok.
  apply mbind_Ok in Hrun as (beta & s2 & _ & Hrun).
  apply mbind_Ok in Hrun as (Xbeta & s3 & _ & Hrun).
  apply mbind_Ok in Hrun as (T & s4 & HT & Hrun).
  repeat (let a := fresh "a" in
          let s := fresh "s" in
          apply mbind_Ok in Hrun as (a & s & _ & Hrun)).
  apply mret_Ok in Hrun as [<- _].
  pose proof (binomial_each_Ok _ _ _ _ HT) as [_ Hbin].
  pose proof (binomial_each_checked _ _ _ _ HT) as Hchk.
  split; [by destruct unobservables|].
  intros Y' T' X' Y0' Y1' ps Hr.
  destruct unobservables; [|done]. injection Hr as _ _ _ _ _ <-.
  eapply Forall_impl; [exact Hchk|].
  intros p [H0 H1]%andb_prop. done.
Qed.

(** C10.  A keyword whose name is none of mu, beta, theta, delta, Sigma,
    Gamma has no effect: adding it to the keywords of a call changes
    neither the outcome nor the state left behind, so it raises nothing of
    its own and the parameters keep the values they had, defaults
    included. *)
Theorem random_data_ignores_unknown_kwargs N K unobservables kwargs name v :
  name ∉ recognised →
  random_data N K unobservables (<[name := v]> kwargs)
  = random_data N K unobservables kwargs.
Proof.
  intros Hname. unfold recognised in Hname.
  assert (Hget : ∀ key dflt, key ∈ recognised →
            kwargs_get (<[name := v]> kwargs) key dflt
            = kwargs_get kwargs key dflt).
  { intros key dflt Hkey. unfold kwargs_get.
    rewrite lookup_insert_ne; [done|]. intros ->. done. }
  unfold random_data.
  rewrite !Hget by (unfold recognised; set_solver).
  reflexivity.
Qed.

End CallFacts.

(** ** is_match_parenthesis: composition and symmetry *)

Section ParenAlgebra.
Import Paren.

Lemma removelast_snoc {A} (l : list A) x : removelast (l ++ [x]) = l.
Proof. induction l as [|y [|z l] IH]; simpl in *; [done | done | by rewrite IH]. Qed.

(** A segment that closes exactly the [length extra] parentheses pending on
    top of [stack], and never more, hands the scan of what follows the stack
    [stack]. *)
Lemma scan_app_closed a : ∀ stack extra b,
  prefix_ok (length extra) a → length extra + opens a = closes a →
  scan (stack ++ extra) (a ++ b) = scan stack b.
Proof.
  induction a as [|s a IH]; intros stack extra b Hp He.
  - change (opens []) with 0 in He. change (closes []) with 0 in He.
    destruct extra; [|simpl in He; lia]. by rewrite app_nil_r.
  - apply prefix_ok_cons in Hp as [H1 Hp].
    rewrite opens_cons, closes_cons in He. simpl.
    destruct (String.eqb_spec s "(") as [->|Hopen].
    + simpl in *. rewrite <- app_assoc. apply IH.
      * intros n. specialize (Hp n). rewrite length_app. simpl. lia.
      * rewrite length_app. simpl. lia.
    + destruct (String.eqb_spec s ")") as [->|Hclose].
      * destruct extra as [|m extra _] using rev_ind; [simpl in H1; lia|].
        rewrite length_app in Hp, He. simpl in Hp, He.
        destruct (Nat.eqb_spec (length (stack ++ extra ++ [m])) 0) as [E|_].
        { rewrite !length_app in E. simpl in E. lia. }
        rewrite app_assoc, removelast_snoc. apply IH.
        -- intros n. specialize (Hp n). lia.
        -- lia.
      * apply IH; [intros n; specialize (Hp n); lia | lia].
Qed.

(** X1.  A balanced list in front does not change the verdict on what
    follows it. *)
Theorem is_match_parenthesis_prefix (a b : list string) :
  is_match_parenthesis a = true →
  is_match_parenthesis (a ++ b) = is_match_parenthesis b.
Proof.
  unfold is_match_parenthesis. intros [Hp He]%scan_spec.
  exact (scan_app_closed a [] [] b Hp He).
Qed.

(** X2.  Wrapping a balanced list in a pair of parentheses, with any tokens
    that are not parentheses around, keeps it balanced. *)
Theorem is_match_parenthesis_nest (l : list string) :
  is_match_parenthesis l = true →
  is_match_parenthesis ("(" :: l ++ [")"]) = true.
Proof.
  unfold is_match_parenthesis. intros [Hp He]%scan_spec.
  change (scan [] ("(" :: l ++ [")"])) with (scan ([builtin_str] ++ []) (l ++ [")"])).
  by rewrite (scan_app_closed l [builtin_str] [] [")"] Hp He).
Qed.

Lemma count_tok_reverse tok l : count_tok tok (reverse l) = count_tok tok l.
Proof.
  induction l as [|s l IH]; [done|].
  rewrite reverse_cons, count_tok_app, IH. simpl. lia.
Qed.

Lemma opens_mirror l : opens (mirror <$> l) = closes l.
Proof.
  induction l as [|s l IH]; [done|].
  rewrite fmap_cons, opens_cons, closes_cons, IH. unfold mirror.
  destruct (String.eqb_spec s "(") as [->|?]; [done|].
  destruct (String.eqb_spec s ")") as [->|?]; [done|].
  by destruct (String.eqb_spec s "(").
Qed.

Lemma closes_mirror l : closes (mirror <$> l) = opens l.
Proof.
  induction l as [|s l IH]; [done|].
  rewrite fmap_cons, opens_cons, closes_cons, IH. unfold mirror.
  destruct (String.eqb_spec s "(") as [->|?]; [done|].
  destruct (String.eqb_spec s ")") as [->|?]; [done|].
  by destruct (String.eqb_spec s ")").
Qed.

Lemma mirror_mirror s : mirror (mirror s) = s.
Proof.
  unfold mirror.
  destruct (String.eqb_spec s "(") as [->|?]; [done|].
  destruct (String.eqb_spec s ")") as [->|?]; [done|].
  destruct (String.eqb_spec s "("); [done|].
  by destruct (String.eqb_spec s ")").
Qed.

Lemma mirror_reverse_involutive l :
  mirror <$> reverse (mirror <$> reverse l) = l.
Proof.
  rewrite <- fmap_reverse, reverse_involutive, <- list_fmap_compose.
  rewrite <- (list_fmap_id l) at 2. apply list_fmap_ext.
  intros i s _. apply mirror_mirror.
Qed.

Lemma scan_mirror_accepts l :
  scan [] l = true → scan [] (mirror <$> reverse l) = true.
Proof.
  intros [Hp He]%scan_spec. apply scan_spec. simpl in *. split.
  - intros n. simpl.
    rewrite <- fmap_take, take_reverse, closes_mirror, opens_mirror.
    unfold opens, closes. rewrite !count_tok_reverse.
    specialize (Hp (length l - n)).
    pose proof (take_drop (length l - n) l) as Hsplit.
    assert (Ho : opens l = opens (take (length l - n) l)
                           + opens (drop (length l - n) l)).
    { rewrite <- Hsplit at 1. apply count_tok_app. }
    assert (Hc : closes l = closes (take (length l - n) l)
                            + closes (drop (length l - n) l)).
    { rewrite <- Hsplit at 1. apply count_tok_app. }
    unfold opens, closes in *. simpl in Hp. lia.
  - rewrite closes_mirror, opens_mirror. unfold opens, closes.
    rewrite !count_tok_reverse. unfold opens, closes in He. lia.
Qed.

(** X3.  Reading the list backwards with "(" and ")" exchanged gives the
    same verdict. *)
Theorem is_match_parenthesis_mirror (l : list string) :
  is_match_parenthesis (mirror <$> reverse l) = is_match_parenthesis l.
Proof.
  unfold is_match_parenthesis.
  destruct (scan [] l) eqn:Hl.
  - by apply scan_mirror_accepts.
  - destruct (scan [] (mirror <$> reverse l)) eqn:Hm; [|done].
    apply scan_mirror_accepts in Hm.
    rewrite mirror_reverse_involutive in Hm. congruence.
Qed.

End ParenAlgebra.

(** ** random_data: shapes, scores and errors for supplied parameters *)

Section RandomDataShapes.
Context {F G : Type} `{!NumPy F G} `{!NumPyContract}.
Implicit Types (st s : @state G) (kwargs : gmap string (@pyval F)).

(** X5.  With [beta] and [theta] 1-D and [delta] a scalar, whatever their
    values and those of the other parameters, a call that returns gives [Y],
    [T], [Y0], [Y1] and [pscore] of length [N] and an [X] of [N] rows with as
    many columns as [mu] has entries.  (A [delta], [beta] or [theta] of
    another rank is broadcast by NumPy into outputs of other shapes: with
    [N = 1], a [delta] of two entries gives [Y] and [Y1] two entries.) *)
Theorem random_data_shapes N K unobservables kwargs st r st' beta theta delta :
  kwargs_get kwargs "beta" (PyVec (np_ones K)) = PyVec beta →
  kwargs_get kwargs "theta" (PyVec (np_ones K)) = PyVec theta →
  kwargs_get kwargs "delta" (PyNum (of_int 3)) = PyNum delta →
  random_data N K unobservables kwargs st = Ok r st' →
  ∃ mu,
    kwargs_get kwargs "mu" (PyVec (np_zeros K)) = PyVec mu ∧
    length (res_Y r) = N ∧ length (res_T r) = N ∧
    shape (res_X r) = (N, length mu) ∧
    Forall (λ row, length row = length mu) (rows (res_X r)) ∧
    ∀ Y T X Y0 Y1 pscore,
      r = Tuple6 Y T X Y0 Y1 pscore →
      length Y0 = N ∧ length Y1 = N ∧ length pscore = N.
Proof.
  intros _ _ _ Hrun.
  apply random_data_Ok in Hrun
    as (mu & Sigma & b & X & T & Y0 & Y1 & Hmu & _ & _ & _ & HX
        & HT & _ & HY0 & HY1 & ->).
  exists mu. split; [done|].
  assert (HY : length (observed T Y0 Y1) = N).
  { unfold observed. rewrite !length_zip_with, length_fmap. lia. }
  assert (Hsh : shape X = (N, length mu)).
  { rewrite HX. unfold shape. by rewrite sample_rows. }
  assert (Hrows : Forall (λ row, length row = length mu) (rows X)).
  { rewrite HX. simpl. apply draw_normal_cols. }
  assert (Hps : length (logistic_cdf <$> ((λ row, inner row b) <$> rows X))
                = N).
  { rewrite !length_fmap, HX. simpl. apply draw_normal_rows. }
  destruct unobservables; simpl; (do 4 (split; [done|])).
  - intros Y' T' X' Y0' Y1' ps [= <- <- <- <- <- <-]. done.
  - intros Y' T' X' Y0' Y1' ps [=].
Qed.

(** X6.  The propensity score returned with [unobservables=True] is the
    logistic CDF of the linear predictor of the returned covariates: at each
    index [i < N], [pscore[i]] is [logistic.cdf] of the inner product of row
    [i] of [X] with the [beta] in use. *)
Theorem random_data_pscore N K kwargs st Y T X Y0 Y1 pscore st' :
  random_data N K true kwargs st = Ok (Tuple6 Y T X Y0 Y1 pscore) st' →
  ∃ beta,
    kwargs_get kwargs "beta" (PyVec (np_ones K)) = PyVec beta ∧
    ∀ i, i < N →
      ∃ row, rows X !! i = Some row ∧
             pscore !! i = Some (logistic_cdf (inner row beta)).
Proof.
  intros Hrun.
  apply random_data_Ok in Hrun
    as (mu & Sigma & beta & X' & T' & Y0' & Y1' & _ & _ & Hbeta & _ & HX
        & _ & _ & _ & _ & Hr).
  simpl in Hr. injection Hr as -> -> -> -> -> ->.
  exists beta. split; [done|]. intros i Hi.
  destruct (lookup_lt_is_Some_2 (rows X') i) as [row Hrow].
  { rewrite HX. simpl. rewrite draw_normal_rows. lia. }
  exists row. split; [done|].
  by rewrite !list_lookup_fmap, Hrow.
Qed.

End RandomDataShapes.

(** ** random_data: which errors, and which parameters, matter *)

Section RandomDataErrors.
Context {F G : Type} `{!NumPy F G}.
Implicit Types (st s : @state G) (kwargs : gmap string (@pyval F)).

Lemma raises_within_bind_Ok {A B} P (m : M A) (k : A → M B) :
  raises_within (G := G) P m →
  (∀ a st st1, m st = Ok a st1 → raises_within P (k a)) →
  raises_within (G := G) P (m ≫= k).
Proof.
  intros Hm Hk st e [Hr|(a & st1 & Ha & Hr)]%mbind_Raise;
    [by eapply Hm | by eapply Hk].
Qed.

Lemma multivariate_normal_expected mean cov size :
  raises_within (G := G) expected_error
    (multivariate_normal mean cov size CheckWarn).
Proof.
  intros st e. unfold multivariate_normal, expected_error.
  destruct mean as [|m|]; try (intros [= <-]; eauto).
  destruct cov as [| |c]; try (intros [= <-]; eauto).
  destruct (negb (nrows c =? ncols c)); [intros [= <-]; eauto|].
  destruct (negb (length m =? nrows c)); [intros [= <-]; eauto|].
  destruct (length m =? 0); [intros [= <-]; eauto|].
  unfold mbind, M_bind, bind, sample_normal.
  destruct (cov_status (rows c)); try done. intros [= <-]. auto.
Qed.

Lemma dot_expected X b : raises_within (G := G) expected_error (dot X b).
Proof.
  intros st e. unfold dot, expected_error.
  destruct (ncols X =? length b); [done|]. intros [= <-]. eauto.
Qed.

Lemma broadcast2_expected {A B C} (f : A → B → C) a b :
  raises_within (G := G) expected_error (broadcast2 f a b).
Proof. intros st e Hr%broadcast2_not_Raise. by left. Qed.

Lemma binomial_each_Raise pscore : ∀ st e,
  binomial_each pscore st = Raise e → e = ProbabilityOutOfRange.
Proof.
  induction pscore as [|p ps IH]; intros st e; cbn [binomial_each]; [done|].
  intros [Hr|(t & st1 & _ & Hr)]%mbind_Raise.
  - revert Hr. unfold binomial1. destruct (prob_ok p); [done|].
    by intros [= <-].
  - apply mbind_Raise in Hr as [Hr|(ts & st2 & _ & Hr)]; [by eapply IH|done].
Qed.

Lemma binomial_each_expected pscore :
  raises_within (G := G) expected_error (binomial_each pscore).
Proof. intros st e ->%binomial_each_Raise. right. by left. Qed.

Lemma column_expected P m j :
  j < ncols m → raises_within (G := G) P (column m j).
Proof. intros Hj st e. by rewrite column_in_range. Qed.

(** X7.  Whatever the arguments, the only exceptions [random_data] lets out
    are a shape mismatch, a probability rejected by the binomial sampler,
    and a decomposition that did not converge: the two column reads of
    [epsilon] never go out of bounds. *)
Theorem random_data_expected_errors N K unobservables kwargs st e :
  random_data N K unobservables kwargs st = Raise e → expected_error e.
Proof.
  revert st e.
  change (raises_within (G := G) expected_error
            (random_data N K unobservables kwargs)).
  unfold random_data, add_arrays, mul_int_float.
  apply raises_within_bind; [apply multivariate_normal_expected|intros X].
  apply raises_within_bind; [apply raises_within_as_vec|intros beta].
  apply raises_within_bind; [apply dot_expected|intros Xbeta].
  apply raises_within_bind; [apply binomial_each_expected|intros T].
  apply raises_within_bind_Ok; [apply multivariate_normal_expected|].
  intros eps st0 st1 Heps.
  apply multivariate_normal_Ok in Heps
    as (m & c & [= <-] & _ & _ & _ & _ & -> & _).
  repeat first
    [ apply raises_within_ret
    | apply raises_within_bind; [|intros ?]
    | apply raises_within_as_vec
    | apply raises_within_as_num
    | apply dot_expected
    | apply column_expected; simpl; lia
    | apply broadcast2_expected ].
Qed.

(** X9.  With [beta] and [theta] 1-D and [delta] a scalar, a call that
    returns was given parameters whose shapes fit one another: a 1-D [mu]
    with at least one entry, a square [Sigma] of [mu]'s dimension, [beta]
    as long as [mu], [theta] as long as [beta] or of length 1, and a
    [2 x 2] [Gamma]. *)
Theorem random_data_Ok_conforming N K unobservables kwargs st r st'
    b0 t0 d0 :
  kwargs_get kwargs "beta" (PyVec (np_ones K)) = PyVec b0 →
  kwargs_get kwargs "theta" (PyVec (np_ones K)) = PyVec t0 →
  kwargs_get kwargs "delta" (PyNum (of_int 3)) = PyNum d0 →
  random_data N K unobservables kwargs st = Ok r st' → conforming K kwargs.
Proof.
  intros _ _ _ Hrun. pose proof Hrun as Hp. revert Hrun.
  unfold random_data, add_arrays, mul_int_float.
  intros (X & s1 & HX & Hrun)%mbind_Ok.
  pose proof HX as Hne.
  apply multivariate_normal_Ok_nonempty in Hne as (mu0 & Hmu0 & Hne).
  apply multivariate_normal_Ok in HX
    as (mu & Sigma & Hmu & HSigma & Hsq & Hlen & _ & HXeq & _).
  assert (mu0 = mu) as -> by congruence.
  apply mbind_Ok in Hrun as (beta & s2 & [Hbeta ->]%as_vec_Ok & Hrun).
  apply mbind_Ok in Hrun as (Xbeta & s3 & (Hal & _ & ->)%dot_Ok & Hrun).
  apply mbind_Ok in Hrun as (T & s4 & _ & Hrun).
  apply mbind_Ok in Hrun as (eps & s5 & Heps & Hrun).
  apply multivariate_normal_Ok in Heps
    as (zero2 & Gamma & [= <-] & HGamma & HGsq & HGlen & _ & _ & _).
  apply mbind_Ok in Hrun as (eps0 & s6 & _ & Hrun).
  apply mbind_Ok in Hrun as (Y0 & s7 & _ & Hrun).
  apply mbind_Ok in Hrun as (theta & s8 & [Htheta ->]%as_vec_Ok & Hrun).
  apply mbind_Ok in Hrun as (bt & s9 & _ & Hrun).
  apply mbind_Ok in Hrun as (Xbt & s10 & _ & Hrun).
  apply mbind_Ok in Hrun as (delta & s11 & [Hdelta ->]%as_num_Ok & _).
  exists mu, beta, theta, delta, Sigma, Gamma.
  do 6 (split; [done|]). split; [lia|].
  do 2 (split; [done|]).
  split; [rewrite HXeq in Hal; simpl in Hal; congruence|].
  split.
  - apply (theta_conforms N K unobservables kwargs st beta theta); try done.
    intros e. by rewrite Hp.
  - unfold shape. unfold np_zeros in HGlen. rewrite length_replicate in HGlen.
    f_equal; congruence.
Qed.

End RandomDataErrors.

(** ** random_data: parameters that fit one another, and invalid covariances *)

Section RandomDataConforming.
Context {F G : Type} `{!NumPy F G} `{!NumPyContract}.
Implicit Types (st s : @state G) (kwargs : gmap string (@pyval F)).

(** With shapes that fit, a draw under [check_valid='warn'] returns its
    sample, or the decomposition did not converge. *)
Lemma multivariate_normal_conform m c size st :
  nrows c = ncols c → length m = nrows c → length m ≠ 0 →
  (multivariate_normal (PyVec m) (PyMat c) size CheckWarn st
   = Raise SvdNotConverged ∧ cov_status (rows c) = CovNoSVD)
  ∨ ∃ s',
      multivariate_normal (PyVec m) (PyMat c) size CheckWarn st
      = Ok (Matrix (length m) (draw_normal m (rows c) size (rng st)).1) s'.
Proof.
  intros Hsq Hlen Hne.
  destruct (cov_status (rows c)) eqn:Hst.
  - right. eexists.
    apply multivariate_normal_warn; [done|done|done|by rewrite Hst].
  - right. eexists.
    apply multivariate_normal_warn; [done|done|done|by rewrite Hst].
  - left. split; [|done]. unfold multivariate_normal.
    destruct (Nat.eqb_spec (nrows c) (ncols c)); [|done].
    destruct (Nat.eqb_spec (length m) (nrows c)); [|done].
    destruct (Nat.eqb_spec (length m) 0); [done|]. simpl.
    unfold mbind, M_bind, bind, sample_normal. by rewrite Hst.
Qed.

(** A right operand of the left one's length, or of length 1, broadcasts
    to the left one's length. *)
Lemma broadcast2_stretch {A B C} (f : A → B → C) a b st :
  length b = length a ∨ length b = 1 →
  ∃ c, broadcast2 f a b st = Ok c st ∧ length c = length a.
Proof.
  intros Hl. unfold broadcast2.
  destruct (Nat.eqb_spec (length a) (length b)) as [E|E].
  - eexists. split; [reflexivity|]. rewrite length_zip_with. lia.
  - destruct Hl as [Hl|Hl]; [lia|].
    destruct b as [|y [|y' b]]; try (simpl in Hl; lia).
    destruct a as [|x [|x' a]]; try (simpl in E; lia);
      (eexists; split; [reflexivity|]; by rewrite length_fmap).
Qed.

(** The treatment loop goes through when every score is accepted. *)
Lemma binomial_each_accepts pscore :
  Forall (λ p, prob_ok p = true) pscore →
  ∀ st, ∃ T st', binomial_each pscore st = Ok T st'.
Proof.
  induction 1 as [|p ps Hp _ IH]; intros st; cbn [binomial_each].
  - by eexists _, _.
  - unfold mbind, M_bind, bind. unfold binomial1 at 1. rewrite Hp.
    destruct (IH (State (bernoulli p (rng st)).2 (warnings st)))
      as (T & st' & ->).
    by eexists _, _.
Qed.

(** The outcomes of a call whose parameters fit one another, each with its
    cause. *)
Lemma random_data_fits N K unobservables kwargs st
    mu beta theta delta Sigma Gamma :
  in_use K kwargs mu beta theta delta Sigma Gamma →
  fits mu beta theta Sigma Gamma →
  (random_data N K unobservables kwargs st = Raise SvdNotConverged ∧
   (cov_status (rows Sigma) = CovNoSVD ∨ cov_status (rows Gamma) = CovNoSVD))
  ∨ (random_data N K unobservables kwargs st = Raise ProbabilityOutOfRange ∧
     ¬ Forall (λ row, prob_ok (logistic_cdf (inner row beta)) = true)
         (draw_normal mu (rows Sigma) N (rng st)).1)
  ∨ (∃ r st', random_data N K unobservables kwargs st = Ok r st').
Proof.
  intros (Hmu & Hbeta & Htheta & Hdelta & HSigma & HGamma)
         (Hne & Hsq & Hlen & Hbl & Hth & [= G1 G2]).
  unfold random_data, add_arrays, mul_int_float.
  rewrite Hmu, Hbeta, Htheta, Hdelta, HSigma, HGamma.
  unfold mbind, M_bind, bind, as_vec, as_num, mret, M_ret, ret.
  destruct (multivariate_normal_conform mu Sigma N st Hsq Hlen ltac:(lia))
    as [[-> HS]|[s1 ->]]; [auto|].
  cbv beta iota.
  rewrite dot_run by (simpl; congruence). cbv beta iota.
  match goal with
  | |- context [binomial_each ?ps ?s] =>
      destruct (binomial_each ps s) as [T s4|e|] eqn:HT
  end;
    [ | right; left; pose proof HT as ->%binomial_each_Raise; split; [done|]
      | by apply binomial_each_modelled in HT ].
  2: { intros Hall. cbn [rows] in HT.
       destruct (binomial_each_accepts
                   (logistic_cdf <$>
                      ((λ row, inner row beta) <$>
                         (draw_normal mu (rows Sigma) N (rng st)).1))) with s1
         as (T & s' & HT').
       { rewrite !Forall_fmap. eapply Forall_impl; [exact Hall|]. done. }
       congruence. }
  apply binomial_each_Ok in HT as [HT _].
  rewrite !length_fmap in HT. cbn [rows] in HT.
  rewrite draw_normal_rows in HT.
  assert (HG : length (np_zeros 2) = nrows Gamma) by (by rewrite G1).
  assert (HG0 : length (A := F) (np_zeros 2) ≠ 0) by done.
  destruct (multivariate_normal_conform (np_zeros 2) Gamma N s4
              ltac:(congruence) HG HG0) as [[-> HGs]|[s5 ->]]; [auto|].
  cbv beta iota.
  rewrite column_run by (simpl; lia). cbv beta iota.
  rewrite broadcast2_run
    by (rewrite !length_fmap; cbn [rows]; by rewrite !draw_normal_rows).
  cbv beta iota.
  destruct (broadcast2_stretch fadd beta theta s5 Hth) as (bt & -> & Hbt).
  rewrite dot_run by (simpl; congruence). cbv beta iota.
  rewrite column_run by (simpl; lia). cbv beta iota.
  rewrite broadcast2_run
    by (rewrite !length_fmap; cbn [rows]; by rewrite !draw_normal_rows).
  cbv beta iota.
  rewrite broadcast2_run
    by (rewrite length_fmap, length_zip_with, !length_fmap; cbn [rows];
        rewrite !draw_normal_rows; lia).
  cbv beta iota.
  rewrite broadcast2_run
    by (rewrite length_zip_with, !length_fmap; cbn [rows];
        rewrite !draw_normal_rows; lia).
  cbv beta iota.
  rewrite broadcast2_run
    by (rewrite !length_zip_with, !length_fmap; cbn [rows];
        rewrite !draw_normal_rows; lia).
  cbv beta iota.
  right. right. by eexists _, _.
Qed.

Lemma conforming_fits K kwargs :
  conforming K kwargs →
  ∃ mu beta theta delta Sigma Gamma,
    in_use K kwargs mu beta theta delta Sigma Gamma ∧
    fits mu beta theta Sigma Gamma.
Proof.
  intros (mu & beta & theta & delta & Sigma & Gamma & Hmu & Hbeta & Htheta
          & Hdelta & HSigma & HGamma & Hfits).
  by exists mu, beta, theta, delta, Sigma, Gamma.
Qed.

(** X8.  When the parameters fit one another the call raises no shape
    mismatch: it returns, or a probability was rejected, or a decomposition
    did not converge.  The defaults fit for every [N] and every [K >= 1]. *)
Theorem random_data_conforming N K unobservables kwargs st :
  conforming K kwargs →
  (∃ r st', random_data N K unobservables kwargs st = Ok r st')
  ∨ random_data N K unobservables kwargs st = Raise ProbabilityOutOfRange
  ∨ random_data N K unobservables kwargs st = Raise SvdNotConverged.
Proof.
  intros (mu & beta & theta & delta & Sigma & Gamma & Huse & Hfit)
           %conforming_fits.
  destruct (random_data_fits N K unobservables kwargs st _ _ _ _ _ _
              Huse Hfit) as [[-> _]|[[-> _]|Hok]]; auto.
Qed.

Lemma conforming_defaults K :
  1 ≤ K → conforming K (∅ : gmap string (@pyval F)).
Proof.
  intros HK.
  exists (np_zeros K), (np_ones K), (np_ones K), (of_int 3),
    (np_identity K), (np_identity 2).
  unfold kwargs_get. rewrite !lookup_empty. simpl.
  do 6 (split; [done|]).
  unfold nrows, shape, nrows, np_zeros, np_ones. simpl.
  rewrite !length_fmap, !length_seq, !length_replicate.
  repeat split; auto.
Qed.

(** C8, as the code has it.  [random_data] calls the sampler with its
    default [check_valid='warn'], so no call raises the invalid-covariance
    error.  When the parameters fit one another, both decompositions
    converge and every probability is accepted, the call returns its tuple
    whether or not [Sigma] and [Gamma] pass the validity test, and it has
    recorded one RuntimeWarning for each of the two that fails it. *)
Theorem random_data_invalid_covariance N K unobservables kwargs st :
  random_data N K unobservables kwargs st ≠ Raise CovarianceNotPSD
  ∧ ∀ mu beta theta delta Sigma Gamma,
      in_use K kwargs mu beta theta delta Sigma Gamma →
      fits mu beta theta Sigma Gamma →
      cov_status (rows Sigma) ≠ CovNoSVD →
      cov_status (rows Gamma) ≠ CovNoSVD →
      Forall (λ row, prob_ok (logistic_cdf (inner row beta)) = true)
        (draw_normal mu (rows Sigma) N (rng st)).1 →
      ∃ r st',
        random_data N K unobservables kwargs st = Ok r st' ∧
        warnings st' = warnings st ++ cov_warning Sigma ++ cov_warning Gamma ∧
        (cov_status (rows Sigma) = CovNotPSD →
         RuntimeWarning "covariance is not symmetric positive-semidefinite."
         ∈ warnings st').
Proof.
  split.
  - assert (Hw : raises_within (G := G) (λ e, e ≠ CovarianceNotPSD)
                   (random_data N K unobservables kwargs)).
    { unfold random_data, add_arrays, mul_int_float.
      repeat first
        [ apply raises_within_ret
        | apply raises_within_bind; [|intros ?]
        | apply multivariate_normal_warn_raises
        | apply raises_within_as_vec
        | apply raises_within_as_num
        | apply dot_raises
        | apply column_raises
        | apply broadcast2_raises
        | apply binomial_each_raises ]. }
    intros Hraise. by apply Hw in Hraise.
  - intros mu beta theta delta Sigma Gamma Huse Hfit HS HG Hall.
    destruct (random_data_fits N K unobservables kwargs st _ _ _ _ _ _
                Huse Hfit) as [[_ [?|?]]|[[_ Hrej]|(r & st' & Hok)]];
      try done.
    exists r, st'. split; [done|].
    destruct Huse as (_ & _ & _ & _ & HSigma & HGamma).
    pose proof (random_data_warnings _ _ _ _ _ _ _ _ _ HSigma HGamma Hok)
      as Hwarn.
    split; [done|]. intros Hbad. rewrite Hwarn.
    unfold cov_warning at 1. rewrite Hbad. set_solver.
Qed.

End RandomDataConforming.

(** ** random_data: what theta and delta cannot reach *)

Section RandomDataFrame.
Context {F G : Type} `{!NumPy F G}.
Implicit Types (st s : @state G) (kwargs : gmap string (@pyval F)).

(** The draws of a call that returns, and the arrays fixed by them. *)
Lemma random_data_draws N K u kwargs st r st' :
  random_data N K u kwargs st = Ok r st' →
  ∃ X beta T eps s1 s4 Y0,
    multivariate_normal (kwargs_get kwargs "mu" (PyVec (np_zeros K)))
      (kwargs_get kwargs "Sigma" (PyMat (np_identity K))) N CheckWarn st
    = Ok X s1 ∧
    kwargs_get kwargs "beta" (PyVec (np_ones K)) = PyVec beta ∧
    binomial_each
      (logistic_cdf <$> ((λ row, inner row beta) <$> rows X)) s1
    = Ok T s4 ∧
    multivariate_normal (PyVec (np_zeros 2))
      (kwargs_get kwargs "Gamma" (PyMat (np_identity 2))) N CheckWarn s4
    = Ok eps st' ∧
    broadcast2 fadd ((λ row, inner row beta) <$> rows X)
      ((λ row, default (of_int 0) (row !! 0)) <$> rows eps) st'
    = Ok Y0 st' ∧
    res_T r = T ∧ res_X r = X ∧
    ∀ Y T' X' Y0' Y1 pscore,
      r = Tuple6 Y T' X' Y0' Y1 pscore →
      Y0' = Y0 ∧
      pscore = logistic_cdf <$> ((λ row, inner row beta) <$> rows X).
Proof.
  unfold random_data, add_arrays, mul_int_float.
  intros (X & s1 & HX & Hrun)%mbind_Ok.
  apply mbind_Ok in Hrun as (beta & s2 & [Hbeta ->]%as_vec_Ok & Hrun).
  apply mbind_Ok in Hrun as (Xbeta & s3 & (_ & -> & ->)%dot_Ok & Hrun).
  apply mbind_Ok in Hrun as (T & s4 & HT & Hrun).
  apply mbind_Ok in Hrun as (eps & s5 & Heps & Hrun).
  apply mbind_Ok in Hrun as (eps0 & s6 & (_ & -> & ->)%column_Ok & Hrun).
  apply mbind_Ok in Hrun as (Y0 & s7 & HY0 & Hrun).
  pose proof (broadcast2_Ok_state _ _ _ _ _ _ HY0) as ->.
  apply mbind_Ok in Hrun as (theta & s8 & [_ ->]%as_vec_Ok & Hrun).
  apply mbind_Ok in Hrun as (bt & s9 & ->%broadcast2_Ok_state & Hrun).
  apply mbind_Ok in Hrun as (Xbt & s10 & (_ & _ & ->)%dot_Ok & Hrun).
  apply mbind_Ok in Hrun as (delta & s11 & [_ ->]%as_num_Ok & Hrun).
  apply mbind_Ok in Hrun as (eps1 & s12 & (_ & _ & ->)%column_Ok & Hrun).
  apply mbind_Ok in Hrun as (Y1 & s13 & ->%broadcast2_Ok_state & Hrun).
  apply mbind_Ok in Hrun as (c & s14 & ->%broadcast2_Ok_state & Hrun).
  apply mbind_Ok in Hrun as (d & s15 & ->%broadcast2_Ok_state & Hrun).
  apply mbind_Ok in Hrun as (Y & s16 & ->%broadcast2_Ok_state & Hrun).
  apply mret_Ok in Hrun as [<- <-].
  exists X, beta, T, eps, s1, s4, Y0.
  do 5 (split; [done|]).
  destruct u; simpl; (do 2 (split; [done|])).
  - by intros ? ? ? ? ? ? [= _ _ _ <- _ <-].
  - by intros ? ? ? ? ? ? [=].
Qed.

(** X10.  [theta] and [delta] reach only [Y1] and [Y].  Two calls from the
    same state whose keywords agree on mu, beta, Sigma and Gamma, and that
    both return, return the same [T] and [X] and leave the same state, and
    when both return 6-tuples the same [Y0] and [pscore]. *)
Theorem random_data_theta_delta_frame N K u1 u2 kwargs1 kwargs2 st
    r1 r2 st1 st2 :
  (∀ name, name ∈ drawn_from → kwargs1 !! name = kwargs2 !! name) →
  random_data N K u1 kwargs1 st = Ok r1 st1 →
  random_data N K u2 kwargs2 st = Ok r2 st2 →
  res_T r1 = res_T r2 ∧ res_X r1 = res_X r2 ∧ st1 = st2 ∧
  ∀ Y T X Y0 Y1 pscore Y' T' X' Y0' Y1' pscore',
    r1 = Tuple6 Y T X Y0 Y1 pscore →
    r2 = Tuple6 Y' T' X' Y0' Y1' pscore' →
    Y0 = Y0' ∧ pscore = pscore'.
Proof.
  intros Hsame Hrun1 Hrun2.
  assert (Hget : ∀ name dflt, name ∈ drawn_from →
            kwargs_get kwargs1 name dflt = kwargs_get kwargs2 name dflt).
  { intros name dflt Hin. unfold kwargs_get. by rewrite Hsame. }
  assert (Hin : ∀ name, name ∈ drawn_from ↔
            name = "mu" ∨ name = "beta" ∨ name = "Sigma" ∨ name = "Gamma").
  { intros name. unfold drawn_from. rewrite !elem_of_cons, elem_of_nil.
    tauto. }
  apply random_data_draws in Hrun1
    as (X1 & b1 & T1 & e1 & s1 & s4 & Y01 & HX1 & Hb1 & HT1 & He1 & HY1
        & HrT1 & HrX1 & H61).
  apply random_data_draws in Hrun2
    as (X2 & b2 & T2 & e2 & s1' & s4' & Y02 & HX2 & Hb2 & HT2 & He2 & HY2
        & HrT2 & HrX2 & H62).
  rewrite (Hget "mu"), (Hget "Sigma") in HX1 by (apply Hin; auto).
  rewrite (Hget "beta") in Hb1 by (apply Hin; auto).
  rewrite (Hget "Gamma") in He1 by (apply Hin; auto).
  rewrite HX1 in HX2. injection HX2 as <- <-.
  rewrite Hb1 in Hb2. injection Hb2 as <-.
  rewrite HT1 in HT2. injection HT2 as <- <-.
  rewrite He1 in He2. injection He2 as <- <-.
  rewrite HY1 in HY2. injection HY2 as <-.
  split; [congruence|]. split; [congruence|]. split; [done|].
  intros Y T X Y0 Y1 ps Y' T' X' Y0' Y1' ps' Hr1 Hr2.
  destruct (H61 _ _ _ _ _ _ Hr1) as [-> ->].
  destruct (H62 _ _ _ _ _ _ Hr2) as [-> ->]. done.
Qed.

End RandomDataFrame.

(** ** Concrete runs on the executable instance *)

Section Runs.
Import Ref.

Lemma random_data_switching_witness :
  ∃ Y T X Y0 Y1 pscore st',
    random_data 3 2 true no_kwargs st0 = Ok (Tuple6 Y T X Y0 Y1 pscore) st' ∧
    ∃ t y0 y1,
      T !! 1 = Some t ∧ Y0 !! 1 = Some y0 ∧ Y1 !! 1 = Some y1 ∧
      Y !! 1 = Some (fadd (fmul (of_int (1 - t)) y0) (fmul (of_int t) y1)).
Proof.
  eexists _, _, _, _, _, _, _. split.
  - vm_compute. reflexivity.
  - eapply (random_data_switching 3 2 no_kwargs st0); [|lia].
    vm_compute. reflexivity.
Defined.

Lemma random_data_tuple_witness :
  ∃ r st',
    random_data 3 2 true no_kwargs st0 = Ok r st' ∧
    ∃ Y T X Y0 Y1 pscore,
      r = Tuple6 Y T X Y0 Y1 pscore ∧
      (∃ mu beta theta delta Sigma Gamma bt epsilon s1 s2,
         in_use 2 no_kwargs mu beta theta delta Sigma Gamma ∧
         multivariate_normal (PyVec mu) (PyMat Sigma) 3 CheckWarn st0
         = Ok X s1 ∧
         pscore = logistic_cdf <$> linear_predictor X beta ∧
         binomial_each pscore s1 = Ok T s2 ∧
         multivariate_normal (PyVec (np_zeros 2)) (PyMat Gamma) 3 CheckWarn s2
         = Ok epsilon st' ∧
         Y0 = zip_with fadd (linear_predictor X beta)
                (column_values epsilon 0) ∧
         add_arrays beta theta st' = Ok bt st' ∧
         Y1 = zip_with fadd (fadd delta <$> linear_predictor X bt)
                (column_values epsilon 1) ∧
         Y = observed T Y0 Y1) ∧
      random_data 3 2 false no_kwargs st0 = Ok (Tuple3 Y T X) st'.
Proof.
  eexists _, _. split.
  - vm_compute. reflexivity.
  - apply (random_data_tuple 3 2 true no_kwargs st0).
    vm_compute. reflexivity.
Defined.

Lemma random_data_default_shapes_witness :
  ∃ r st', random_data 4 3 false no_kwargs st0 = Ok r st' ∧
    length (res_Y r) = 4 ∧ length (res_T r) = 4 ∧
    shape (res_X r) = (4, 3) ∧
    Forall (λ row, length row = 3) (rows (res_X r)).
Proof.
  eexists _, _. split.
  - vm_compute. reflexivity.
  - eapply (random_data_default_shapes 4 3 false st0); [lia|].
    vm_compute. reflexivity.
Defined.

Lemma valid_params_defaults : valid_params 3 no_kwargs.
Proof.
  split; [lia|].
  exists (np_zeros 3), (np_ones 3), (np_ones 3), (of_int 3),
    (np_identity 3), (np_identity 2).
  repeat split; vm_compute; reflexivity.
Defined.

Lemma random_data_empty_witness :
  valid_params 3 no_kwargs ∧
  ∃ X st',
    random_data 0 3 true no_kwargs st0 = Ok (Tuple6 [] [] X [] [] []) st'
    ∧ rows X = [] ∧ shape X = (0, 3).
Proof.
  split; [exact valid_params_defaults|].
  exact (random_data_empty 3 true no_kwargs st0 valid_params_defaults).
Defined.

Lemma random_data_ignores_unknown_kwargs_witness :
  ("Beta" ∉ recognised) ∧
  (random_data 4 3 false (<["Beta" := PyVec [7; 7]%Q]> no_kwargs)
   = random_data 4 3 false no_kwargs).
Proof.
  assert (Hname : "Beta" ∉ recognised).
  { unfold recognised. rewrite !not_elem_of_cons. repeat split; try done.
    apply not_elem_of_nil. }
  split; [exact Hname|].
  exact (random_data_ignores_unknown_kwargs 4 3 false no_kwargs "Beta"
           (PyVec [7; 7]%Q) Hname).
Defined.

(** C7 fails as stated: with [K = 3], a [beta] of length 2 is accepted when
    [mu], [Sigma] and [theta] have dimension 2 as well, and [X] then has 2
    columns; and a [theta] of length 1 is accepted next to the defaults. *)
Lemma random_data_K_not_enforced :
  kwargs_dim2 !! "beta" = Some (PyVec [1; 1]%Q) ∧
  length [1; 1]%Q ≠ 3 ∧
  (∃ r st', random_data 2 3 false kwargs_dim2 st0 = Ok r st' ∧
            shape (res_X r) = (2, 2)) ∧
  kwargs_theta1 !! "theta" = Some (PyVec [5]%Q) ∧
  length [5]%Q ≠ 3 ∧
  (∃ r st', random_data 2 3 false kwargs_theta1 st0 = Ok r st').
Proof.
  split; [reflexivity|]. split; [simpl; lia|]. split.
  { eexists _, _. split; vm_compute; reflexivity. }
  split; [reflexivity|]. split; [simpl; lia|].
  eexists _, _. vm_compute. reflexivity.
Qed.

(** C8 fails as stated: a [Sigma] that is not symmetric, and fails the
    validity test, raises nothing; the call returns its tuple and has
    recorded a warning. *)
Lemma random_data_lopsided_Sigma_returns :
  entry (rows lopsided) 0 1 ≠ entry (rows lopsided) 1 0 ∧
  cov_status (rows lopsided) = CovNotPSD ∧
  ∃ r st',
    random_data 2 2 false kwargs_lopsided st0 = Ok r st' ∧
    warnings st'
    = [RuntimeWarning "covariance is not symmetric positive-semidefinite."].
Proof.
  split; [by vm_compute|]. split; [vm_compute; reflexivity|].
  eexists _, _. split; vm_compute; reflexivity.
Qed.

End Runs.

(** ** Further concrete runs *)

Section MoreRuns.
Import Paren Ref.

Lemma is_match_parenthesis_prefix_witness :
  is_match_parenthesis ["("; "x"; ")"] = true ∧
  is_match_parenthesis (["("; "x"; ")"] ++ [")"; "("])
  = is_match_parenthesis [")"; "("].
Proof.
  split; [reflexivity|].
  apply (is_match_parenthesis_prefix ["("; "x"; ")"] [")"; "("]). reflexivity.
Defined.

Lemma is_match_parenthesis_nest_witness :
  is_match_parenthesis ["("; ")"; "y"] = true ∧
  is_match_parenthesis ("(" :: ["("; ")"; "y"] ++ [")"]) = true.
Proof.
  split; [reflexivity|].
  apply (is_match_parenthesis_nest ["("; ")"; "y"]). reflexivity.
Defined.

Lemma random_data_T_binary_witness :
  ∃ r st', random_data 4 3 false no_kwargs st0 = Ok r st' ∧
    Forall (λ t, t = 0 ∨ t = 1)%Z (res_T r).
Proof.
  eexists _, _. split.
  - vm_compute. reflexivity.
  - eapply (random_data_T_binary 4 3 false no_kwargs st0).
    vm_compute. reflexivity.
Defined.

Lemma random_data_shapes_witness :
  ∃ r st', random_data 2 3 true kwargs_dim2 st0 = Ok r st' ∧
    ∃ mu,
      kwargs_get kwargs_dim2 "mu" (PyVec (np_zeros 3)) = PyVec mu ∧
      length (res_Y r) = 2 ∧ length (res_T r) = 2 ∧
      shape (res_X r) = (2, length mu) ∧
      Forall (λ row, length row = length mu) (rows (res_X r)) ∧
      ∀ Y T X Y0 Y1 pscore,
        r = Tuple6 Y T X Y0 Y1 pscore →
        length Y0 = 2 ∧ length Y1 = 2 ∧ length pscore = 2.
Proof.
  eexists _, _. split.
  - vm_compute. reflexivity.
  - eapply (random_data_shapes 2 3 true kwargs_dim2 st0);
      vm_compute; reflexivity.
Defined.

Lemma random_data_pscore_witness :
  ∃ Y T X Y0 Y1 pscore st',
    random_data 3 2 true no_kwargs st0 = Ok (Tuple6 Y T X Y0 Y1 pscore) st' ∧
    ∃ beta,
      kwargs_get no_kwargs "beta" (PyVec (np_ones 2)) = PyVec beta ∧
      ∀ i, i < 3 →
        ∃ row, rows X !! i = Some row ∧
               pscore !! i = Some (logistic_cdf (inner row beta)).
Proof.
  eexists _, _, _, _, _, _, _. split.
  - vm_compute. reflexivity.
  - eapply (random_data_pscore 3 2 no_kwargs st0). vm_compute. reflexivity.
Defined.

Lemma random_data_expected_errors_witness :
  ∃ e, random_data 2 3 false kwargs_beta2 st0 = Raise e ∧ expected_error e.
Proof.
  eexists. split.
  - vm_compute. reflexivity.
  - eapply (random_data_expected_errors 2 3 false kwargs_beta2 st0).
    vm_compute. reflexivity.
Defined.

Lemma random_data_conforming_witness :
  conforming 3 no_kwargs ∧
  ((∃ r st', random_data 4 3 false no_kwargs st0 = Ok r st')
   ∨ random_data 4 3 false no_kwargs st0 = Raise ProbabilityOutOfRange
   ∨ random_data 4 3 false no_kwargs st0 = Raise SvdNotConverged).
Proof.
  assert (Hfit : conforming 3 no_kwargs) by (apply conforming_defaults; lia).
  split; [exact Hfit|].
  exact (random_data_conforming 4 3 false no_kwargs st0 Hfit).
Defined.

Lemma random_data_Ok_conforming_witness :
  ∃ r st', random_data 2 3 false kwargs_theta1 st0 = Ok r st' ∧
    conforming 3 kwargs_theta1.
Proof.
  eexists _, _. split.
  - vm_compute. reflexivity.
  - eapply (random_data_Ok_conforming 2 3 false kwargs_theta1 st0);
      vm_compute; reflexivity.
Defined.

Lemma drawn_from_no_theta name :
  name ∈ drawn_from → no_kwargs !! name = kwargs_theta1 !! name.
Proof.
  unfold drawn_from. rewrite !elem_of_cons, elem_of_nil.
  intros [->|[->|[->|[->|[]]]]]; reflexivity.
Defined.

Lemma random_data_theta_delta_frame_witness :
  ∃ r1 r2 st1 st2,
    random_data 2 3 true no_kwargs st0 = Ok r1 st1 ∧
    random_data 2 3 true kwargs_theta1 st0 = Ok r2 st2 ∧
    res_T r1 = res_T r2 ∧ res_X r1 = res_X r2 ∧ st1 = st2 ∧
    ∀ Y T X Y0 Y1 pscore Y' T' X' Y0' Y1' pscore',
      r1 = Tuple6 Y T X Y0 Y1 pscore →
      r2 = Tuple6 Y' T' X' Y0' Y1' pscore' →
      Y0 = Y0' ∧ pscore = pscore'.
Proof.
  eexists _, _, _, _. split; [vm_compute; reflexivity|].
  split; [vm_compute; reflexivity|].
  eapply (random_data_theta_delta_frame 2 3 true true no_kwargs kwargs_theta1
            st0 _ _ _ _ drawn_from_no_theta); vm_compute; reflexivity.
Defined.

Lemma random_data_invalid_covariance_witness :
  cov_status (rows lopsided) = CovNotPSD ∧
  ∃ r st',
    random_data 2 2 false kwargs_lopsided st0 = Ok r st' ∧
    warnings st'
    = warnings st0 ++ cov_warning lopsided ++ cov_warning (np_identity 2) ∧
    (cov_status (rows lopsided) = CovNotPSD →
     RuntimeWarning "covariance is not symmetric positive-semidefinite."
     ∈ warnings st').
Proof.
  split; [vm_compute; reflexivity|].
  apply (proj2 (random_data_invalid_covariance 2 2 false kwargs_lopsided st0)
           (np_zeros 2) (np_ones 2) (np_ones 2) (of_int 3) lopsided
           (np_identity 2)).
  - repeat split; vm_compute; reflexivity.
  - repeat split; vm_compute; auto.
  - by vm_compute.
  - by vm_compute.
  - vm_compute. repeat constructor.
Defined.

End MoreRuns.

(** ** Concrete runs in binary64 *)

Section Binary64Runs.
Import F64.

(** C4 fails as stated: with one covariate held at 800 (respectively
    -800) and the default [beta = [1.]], the linear predictor is the finite
    value 800 (-800) and the propensity score is exactly 1 (exactly 0), which
    is not strictly below 1 (above 0). *)
Lemma random_data_pscore_reaches_bounds :
  (∃ Y T Y0 Y1 st',
     random_data 1 1 true (kwargs_constant 800) st0
     = Ok (Tuple6 Y T (Matrix 1 [[800%float]]) Y0 Y1 [1%float]) st' ∧
     is_finite (inner [800%float] (np_ones 1)) = true ∧
     flt 1%float (of_int 1) = false) ∧
  (∃ Y T Y0 Y1 st',
     random_data 1 1 true (kwargs_constant (-800)) st0
     = Ok (Tuple6 Y T (Matrix 1 [[(-800)%float]]) Y0 Y1 [0%float]) st' ∧
     is_finite (inner [(-800)%float] (np_ones 1)) = true ∧
     flt (of_int 0) 0%float = false).
Proof.
  split; eexists _, _, _, _, _; (split; [|split]); vm_compute; reflexivity.
Qed.

Lemma random_data_T_pscore_range_witness :
  ∃ r st',
    random_data 1 1 true (kwargs_constant 800) st0 = Ok r st' ∧
    Forall (λ t, t = 0 ∨ t = 1)%Z (res_T r) ∧
    ∀ Y T X Y0 Y1 pscore,
      r = Tuple6 Y T X Y0 Y1 pscore →
      Forall (λ p, fle (of_int 0) p = true ∧ fle p (of_int 1) = true) pscore.
Proof.
  eexists _, _. split.
  - vm_compute. reflexivity.
  - eapply (random_data_T_pscore_range 1 1 true (kwargs_constant 800)
              st0).
    vm_compute. reflexivity.
Defined.

End Binary64Runs.
